(** * Vantage micro-safety layer: the detection-to-alert logic of [Vantage.py]

    The development embeds the decision logic of [VantageSystem]: the hazard
    filter of [run] (lines 101-109), [estimate_distance], the cooldown-gated
    [trigger_bone_conduction], and the detection loop of [run] (lines 97-133).

    Numbers.  Python floats are modelled by exact rationals ([Q]): the
    literals [0.55], [2.0], [0.8], [0.4], [0.5], [1.5], [3.0] are the
    rationals they denote, [/] is rational division (raising
    [ZeroDivisionError] on a zero divisor) and [>], [<] are the rational
    orders.  Python ints are [Z].

    Effects.  [time.time()], [print] and the two OpenCV drawing calls are the
    only effects of the modelled code.  The clock is an oracle
    ([time_source], indexed by the number of readings made so far); output
    goes to a chronological list of events. *)

From Stdlib Require Import QArith Qround ZArith List String Lia Lqa.
From stdpp Require Import gmap.
Import ListNotations.

Local Open Scope Q_scope.

(** ** Python primitives *)

(** [x > y] on numbers. *)
Definition Qgtb (x y : Q) : bool := negb (Qle_bool x y).

(** [x < y] on numbers. *)
Definition Qltb (x y : Q) : bool := negb (Qle_bool y x).

(** [int(x)] on a float: truncation toward zero. *)
Definition int (x : Q) : Z := Z.quot (Qnum x) (Z.pos (Qden x)).

(** [math.ceil(x)]. *)
Definition math_ceil (x : Q) : Z := Qceiling x.

Inductive Exception : Set :=
| ZeroDivisionError
| KeyError.

Inductive Outcome (A : Type) : Type :=
| Normal (a : A)
| Raised (e : Exception).
Arguments Normal {A} a.
Arguments Raised {A} e.

(** [a / b] on two ints (true division). *)
Definition truediv (a b : Z) : Outcome Q :=
  if (b =? 0)%Z then Raised ZeroDivisionError
  else Normal (inject_Z a / inject_Z b).

(** ** Configuration (lines 24-41) *)

Definition CONFIDENCE_THRESHOLD : Q := 0.55.
Definition AUDIO_COOLDOWN : Q := 2.0.

Definition HAZARD_MAP : gmap Z string :=
  <[0%Z := "Pedestrian (Dynamic)"%string]>
  (<[1%Z := "Cyclist (Dynamic)"%string]>
  (<[2%Z := "Car (Dynamic)"%string]>
  (<[3%Z := "Bike (Dynamic)"%string]>
  (<[5%Z := "Bus (Dynamic)"%string]>
  (<[7%Z := "Truck (Dynamic)"%string]>
  (<[13%Z := "Verticality (Bench/Step)"%string]>
  (<[56%Z := "Obstacle (Chair)"%string]> ∅))))))).

(** [k in d] *)
Definition dict_contains (d : gmap Z string) (k : Z) : bool :=
  bool_decide (is_Some (d !! k)).

(** [d[k]] *)
Definition dict_getitem (d : gmap Z string) (k : Z) : Outcome string :=
  match d !! k with
  | Some v => Normal v
  | None => Raised KeyError
  end.

(** ** The object and its environment *)

(** The part of [self] the logic reads and writes. *)
Record VantageSystem : Type := mkVantageSystem {
  last_audio_time : Q
}.

(** [__init__], line 56. *)
Definition init : VantageSystem := {| last_audio_time := 0 |}.

Definition Color : Set := (Z * Z * Z)%type.

Inductive Event : Type :=
| BoneConductionAudio (message : string)
    (* print(f"\n>>> [BONE CONDUCTION AUDIO]: 'Warning! {message} ahead.' <<<\n") *)
| Rectangle (x1 y1 x2 y2 : Z) (color : Color)
    (* cv2.rectangle(frame, (x1, y1), (x2, y2), color, 3) *)
| PutText (label : string) (distance : Q) (x y : Z) (color : Color)
    (* cv2.putText(frame, f"{label} | {distance}m", (x, y), ..., color, 2) *)
| Console (text : string)   (* the other calls of print *)
| ImShow                    (* cv2.imshow('Vantage Co-Pilot Debug View', frame) *)
| CapRelease                (* self.cap.release() *)
| DestroyAllWindows.        (* cv2.destroyAllWindows() *)

Record World : Type := mkWorld {
  time_source : nat -> Q;   (* what the k-th reading of the clock returns *)
  time_calls : nat;         (* readings made so far *)
  output : list Event       (* console and frame drawing, oldest first *)
}.

(** ** A state-and-exception monad for method bodies *)

Definition M (A : Type) : Type :=
  VantageSystem -> World -> Outcome A * VantageSystem * World.

Definition ret {A} (a : A) : M A := fun self w => (Normal a, self, w).

Definition bind {A B} (m : M A) (k : A -> M B) : M B :=
  fun self w =>
    match m self w with
    | (Normal a, self', w') => k a self' w'
    | (Raised e, self', w') => (Raised e, self', w')
    end.

Notation "'let*' x ':=' m 'in' k" := (bind m (fun x => k))
  (at level 10, x name, m at level 100, k at level 200, only parsing).
Notation "m ;; k" := (bind m (fun _ => k))
  (at level 100, k at level 200, right associativity, only parsing).

Definition lift {A} (o : Outcome A) : M A := fun self w => (o, self, w).

(** The world after the events [evs] have been output. *)
Definition write (evs : list Event) (w : World) : World :=
  {| time_source := time_source w; time_calls := time_calls w;
     output := output w ++ evs |}.

(** The world after one more reading of the clock. *)
Definition tick (w : World) : World :=
  {| time_source := time_source w; time_calls := S (time_calls w);
     output := output w |}.

Definition emit (e : Event) : M unit :=
  fun self w => (Normal tt, self, write [e] w).

(** [time.time()] *)
Definition time_time : M Q :=
  fun self w => (Normal (time_source w (time_calls w)), self, tick w).

Definition get_last_audio_time : M Q :=
  fun self w => (Normal (last_audio_time self), self, w).

Definition set_last_audio_time (t : Q) : M unit :=
  fun _ w => (Normal tt, {| last_audio_time := t |}, w).

(** [for x in l: body(x)] *)
Fixpoint for_each {A} (body : A -> M unit) (l : list A) : M unit :=
  match l with
  | [] => ret tt
  | x :: l' => body x ;; for_each body l'
  end.

(** ** Methods of [VantageSystem] *)

(** Lines 60-70. *)
Definition trigger_bone_conduction (message : string) : M unit :=
  let* current_time := time_time in
  let* last := get_last_audio_time in
  if Qgtb (current_time - last) AUDIO_COOLDOWN then
    emit (BoneConductionAudio message) ;;
    set_last_audio_time current_time
  else ret tt.

(** Lines 72-82. *)
Definition estimate_distance (box_width frame_width : Z) : Outcome Q :=
  match truediv box_width frame_width with
  | Raised e => Raised e
  | Normal perceived_width =>
      if Qgtb perceived_width 0.8 then Normal 0.5
      else if Qgtb perceived_width 0.4 then Normal 1.5
      else Normal 3.0
  end.

(** One element of [r.boxes]: [box.conf[0]], [box.cls[0]], [box.xyxy[0]]. *)
Record Box : Type := mkBox {
  conf : Q;
  cls : Q;
  xyxy : Q * Q * Q * Q
}.

(** Line 101. *)
Definition round_conf (c : Q) : Q := inject_Z (math_ceil (c * 100)) / 100.

(** Line 107, on the rounded confidence and the class id. *)
Definition is_hazard (conf : Q) (cls_id : Z) : bool :=
  Qgtb conf CONFIDENCE_THRESHOLD && dict_contains HAZARD_MAP cls_id.

Definition RED : Color := (0, 0, 255)%Z.
Definition GREEN : Color := (0, 255, 0)%Z.

(** Body of the inner loop, lines 100-133. *)
Definition process_box (width : Z) (box : Box) : M unit :=
  let conf := round_conf (conf box) in
  let cls_id := int (cls box) in
  if is_hazard conf cls_id then
    let* label := lift (dict_getitem HAZARD_MAP cls_id) in
    let '(x1, y1, x2, y2) := xyxy box in
    let '(x1, y1, x2, y2) := (int x1, int y1, int x2, int y2) in
    let obj_width := (x2 - x1)%Z in
    let* distance := lift (estimate_distance obj_width width) in
    let color := if Qltb distance 2.0 then RED else GREEN in
    emit (Rectangle x1 y1 x2 y2 color) ;;
    emit (PutText label distance x1 (y1 - 10)%Z color) ;;
    if Qltb distance 2.0 then trigger_bone_conduction label
    else ret tt
  else ret tt.

(** Lines 97-133: [for r in results: for box in r.boxes: ...]; a result is
    represented by its list of boxes. *)
Definition process_detections (width : Z) (results : list (list Box)) : M unit :=
  for_each (fun boxes => for_each (process_box width) boxes) results.

(** One turn of the [while True] loop as the environment supplies it: what
    [self.cap.read()] and [frame.shape] give, what the model yields on the
    frame, and what [cv2.waitKey(1)] returns. *)
Record Capture : Type := mkCapture {
  success : bool;
  frame_width : Z;
  results : list (list Box);
  key : Z
}.

(** Lines 85-141.  The loop runs over the captures supplied; the model stops
    when they are used up. *)
Fixpoint run_loop (feed : list Capture) : M unit :=
  match feed with
  | [] => ret tt
  | c :: feed' =>
      if negb (success c) then emit (Console "[ERROR] Camera disconnected.")
      else
        process_detections (frame_width c) (results c) ;;
        emit ImShow ;;
        if (Z.land (key c) 255 =? 113)%Z
        then emit (Console "[STOP] Shutting down Vantage System...")
        else run_loop feed'
  end.

(** Lines 84-144. *)
Definition run (feed : list Capture) : M unit :=
  run_loop feed ;;
  emit CapRelease ;;
  emit DestroyAllWindows.

(** ** Views of the code used to state its properties *)

(** The filter of lines 101-109 as a function of the class id and of the raw
    confidence [box.conf[0]]: the label the body goes on with, or [None] when
    the detection is skipped. *)
Definition classify (cls_id : Z) (confidence : Q) : option string :=
  if is_hazard (round_conf confidence) cls_id then HAZARD_MAP !! cls_id
  else None.

(** The keys of [HAZARD_MAP]. *)
Definition hazard_ids : list Z := [0; 1; 2; 3; 5; 7; 13; 56]%Z.

(** The three values [estimate_distance] returns, named as in its comments
    ("Very Close", "Close", "Safe Distance"). *)
Inductive DistanceBand : Set := VeryClose | Close | Safe.

Definition meters (b : DistanceBand) : Q :=
  match b with
  | VeryClose => 0.5
  | Close => 1.5
  | Safe => 3.0
  end.

(** Position in the order VeryClose < Close < Safe. *)
Definition band_rank (b : DistanceBand) : nat :=
  match b with
  | VeryClose => 0
  | Close => 1
  | Safe => 2
  end.

(** [x2 - x1] of line 116. *)
Definition obj_width (box : Box) : Z :=
  let '(x1, _, x2, _) := xyxy box in (int x2 - int x1)%Z.

(** What the body draws for a detection: nothing when the filter skips it or
    the distance cannot be computed. *)
Definition annotation (width : Z) (box : Box) : list Event :=
  match classify (int (cls box)) (conf box),
        estimate_distance (obj_width box) width with
  | Some label, Normal distance =>
      let '(x1, y1, x2, y2) := xyxy box in
      let color := if Qltb distance 2.0 then RED else GREEN in
      [Rectangle (int x1) (int y1) (int x2) (int y2) color;
       PutText label distance (int x1) (int y1 - 10)%Z color]
  | _, _ => []
  end.

(** The label passed to [trigger_bone_conduction] for a detection, if the
    body reaches line 133 for it. *)
Definition alert_request (width : Z) (box : Box) : option string :=
  match classify (int (cls box)) (conf box),
        estimate_distance (obj_width box) width with
  | Some label, Normal distance =>
      if Qltb distance 2.0 then Some label else None
  | _, _ => None
  end.

(** Whether the filter lets a detection through. *)
Definition accepted (box : Box) : bool :=
  match classify (int (cls box)) (conf box) with
  | Some _ => true
  | None => false
  end.

Definition alert_requests (width : Z) (boxes : list Box) : list string :=
  omap (alert_request width) boxes.

Definition audio_messages (evs : list Event) : list string :=
  omap (fun e => match e with
                 | BoneConductionAudio m => Some m
                 | _ => None
                 end) evs.

Definition is_drawing (e : Event) : bool :=
  match e with
  | Rectangle _ _ _ _ _ | PutText _ _ _ _ _ => true
  | _ => false
  end.

Definition drawings (evs : list Event) : list Event :=
  List.filter is_drawing evs.

(** Whether a call printed something: the console grew. *)
Definition spoke (w w' : World) : bool :=
  (length (output w) <? length (output w'))%nat.

(** [trigger_bone_conduction] seen as a decision: whether the call spoke, and
    the object it leaves. *)
Definition should_alert (message : string) (self : VantageSystem) (w : World)
  : bool * VantageSystem :=
  let '(_, self', w') := trigger_bone_conduction message self w in
  (spoke w w', self').

(** A sequence of calls of [trigger_bone_conduction], one per message: for
    each call the time it read and whether it spoke. *)
Fixpoint call_history (messages : list string) (self : VantageSystem)
    (w : World) : list (Q * bool) :=
  match messages with
  | [] => []
  | m :: ms =>
      let '(_, self', w') := trigger_bone_conduction m self w in
      (time_source w (time_calls w), spoke w w') :: call_history ms self' w'
  end.

(** ** The specification's band-based reading of the proximity decision *)



(** ** Sequences of hook calls and whole runs *)

(** The object and the world after the audio hook has been called on each
    message in turn. *)
Definition after_calls (messages : list string) (self : VantageSystem)
    (w : World) : VantageSystem * World :=
  let '(_, self', w') := for_each trigger_bone_conduction messages self w in
  (self', w').

(** The messages of the calls that spoke, given what [call_history] recorded
    for them. *)
Fixpoint spoken_messages (messages : list string) (history : list (Q * bool))
    : list string :=
  match messages, history with
  | m :: ms, (_, b) :: h =>
      if b then m :: spoken_messages ms h else spoken_messages ms h
  | _, _ => []
  end.

(** The labels [run_loop] passes to the audio hook, frame after frame, up to
    the capture that ends the loop (frames of non-zero width). *)
Fixpoint run_requests (feed : list Capture) : list string :=
  match feed with
  | [] => []
  | c :: feed' =>
      if negb (success c) then []
      else
        alert_requests (frame_width c) (concat (results c)) ++
        (if (Z.land (key c) 255 =? 113)%Z then [] else run_requests feed')
  end.

(** What the detection loop can output: drawings and announcements. *)
Definition is_frame_event (e : Event) : bool :=
  match e with
  | BoneConductionAudio _ | Rectangle _ _ _ _ _ | PutText _ _ _ _ _ => true
  | _ => false
  end.

(** ** Sample data *)

(** A world whose clock always reads [t], before any reading or output. *)
Definition clock_at (t : Q) : World :=
  {| time_source := fun _ => t; time_calls := 0; output := [] |}.

(** A world whose clock reads [t], [t + step], [t + 2 step], ... *)
Definition clock_from (t step : Q) : World :=
  {| time_source := fun k => t + inject_Z (Z.of_nat k) * step;
     time_calls := 0; output := [] |}.

(** On a 1280-pixel frame: a person and a car filling most of the frame, and
    a chair taking a tenth of it. *)
Definition pedestrian_near : Box := mkBox 0.9 0 (100, 50, 1200, 700).
Definition car_near : Box := mkBox 0.9 2 (50, 100, 1250, 700).
Definition chair_far : Box := mkBox 0.9 56 (600, 300, 728, 500).

(** * Properties *)

(** ** Comparisons *)

Lemma Qgtb_true (x y : Q) : Qgtb x y = true <-> y < x.
Proof.
  unfold Qgtb. rewrite negb_true_iff.
  split; intros H.
  - apply Qnot_le_lt. intros Hle. apply Qle_bool_iff in Hle. congruence.
  - destruct (Qle_bool x y) eqn:E; [|reflexivity].
    apply Qle_bool_iff in E. exfalso. exact (Qlt_not_le _ _ H E).
Qed.

Lemma Qgtb_false (x y : Q) : Qgtb x y = false <-> x <= y.
Proof.
  unfold Qgtb. rewrite negb_false_iff. apply Qle_bool_iff.
Qed.

Lemma Qltb_true (x y : Q) : Qltb x y = true <-> x < y.
Proof. apply (Qgtb_true y x). Qed.

Lemma Qltb_false (x y : Q) : Qltb x y = false <-> y <= x.
Proof. apply (Qgtb_false y x). Qed.

(** ** The confidence filter *)

Lemma round_conf_gt (c : Q) :
  CONFIDENCE_THRESHOLD < round_conf c <-> CONFIDENCE_THRESHOLD < c.
Proof.
  unfold round_conf, math_ceil, CONFIDENCE_THRESHOLD, Qdiv.
  change (/ 100) with 0.01.
  pose proof (Qle_ceiling (c * 100)) as Hup.
  pose proof (Qceiling_lt (c * 100)) as Hlo.
  set (z := Qceiling (c * 100)) in *.
  split; intros H.
  - assert (Hz : (55 < z)%Z).
    { rewrite Zlt_Qlt. change (inject_Z 55) with 55. lra. }
    assert (Hz' : inject_Z 55 <= inject_Z (z - 1)).
    { rewrite <- Zle_Qle. lia. }
    change (inject_Z 55) with 55 in Hz'. lra.
  - lra.
Qed.

Lemma Qgtb_round_conf (c : Q) :
  Qgtb (round_conf c) CONFIDENCE_THRESHOLD = Qgtb c CONFIDENCE_THRESHOLD.
Proof.
  destruct (Qgtb c CONFIDENCE_THRESHOLD) eqn:E.
  - apply Qgtb_true. apply round_conf_gt. apply Qgtb_true. exact E.
  - apply Qgtb_false.
    apply Qgtb_false in E.
    apply Qnot_lt_le. intros H. apply (proj1 (round_conf_gt c)) in H.
    exact (Qlt_not_le _ _ H E).
Qed.


(** ** The hazard table *)

Lemma HAZARD_MAP_dom : dom HAZARD_MAP = list_to_set hazard_ids.
Proof.
  unfold HAZARD_MAP, hazard_ids. rewrite !dom_insert_L, dom_empty_L.
  simpl. reflexivity.
Qed.

Lemma HAZARD_MAP_keys (k : Z) : is_Some (HAZARD_MAP !! k) <-> k ∈ hazard_ids.
Proof.
  rewrite <- elem_of_dom, HAZARD_MAP_dom. apply elem_of_list_to_set.
Qed.

Lemma dict_contains_spec (k : Z) :
  dict_contains HAZARD_MAP k = true <-> is_Some (HAZARD_MAP !! k).
Proof. unfold dict_contains. apply bool_decide_eq_true. Qed.

Lemma classify_Some (cls_id : Z) (confidence : Q) (label : string) :
  classify cls_id confidence = Some label <->
  CONFIDENCE_THRESHOLD < confidence /\ HAZARD_MAP !! cls_id = Some label.
Proof.
  unfold classify, is_hazard. rewrite Qgtb_round_conf.
  destruct (Qgtb confidence CONFIDENCE_THRESHOLD) eqn:E; simpl.
  - apply Qgtb_true in E.
    destruct (dict_contains HAZARD_MAP cls_id) eqn:D.
    + tauto.
    + split; [discriminate|]. intros [_ H].
      assert (dict_contains HAZARD_MAP cls_id = true); [|congruence].
      apply dict_contains_spec. eauto.
  - apply Qgtb_false in E. split; [discriminate|].
    intros [H _]. exfalso. exact (Qlt_not_le _ _ H E).
Qed.



(** ** The proximity heuristic *)

Lemma truediv_nonzero (a b : Z) :
  b <> 0%Z -> truediv a b = Normal (inject_Z a / inject_Z b).
Proof.
  intros Hb. unfold truediv.
  destruct (Z.eqb_spec b 0); [contradiction|reflexivity].
Qed.

Lemma estimate_distance_zero (box_width : Z) :
  estimate_distance box_width 0 = Raised ZeroDivisionError.
Proof. reflexivity. Qed.

Lemma estimate_distance_cases (box_width frame_width : Z) :
  frame_width <> 0%Z ->
  let ratio := inject_Z box_width / inject_Z frame_width in
  (0.8 < ratio /\
   estimate_distance box_width frame_width = Normal (meters VeryClose)) \/
  (0.4 < ratio /\ ratio <= 0.8 /\
   estimate_distance box_width frame_width = Normal (meters Close)) \/
  (ratio <= 0.4 /\
   estimate_distance box_width frame_width = Normal (meters Safe)).
Proof.
  intros Hf ratio. unfold estimate_distance.
  rewrite truediv_nonzero by exact Hf. fold ratio.
  destruct (Qgtb ratio 0.8) eqn:E1.
  { left. split; [now apply Qgtb_true|reflexivity]. }
  apply Qgtb_false in E1.
  destruct (Qgtb ratio 0.4) eqn:E2.
  { right. left. split; [now apply Qgtb_true|]. split; [exact E1|reflexivity]. }
  apply Qgtb_false in E2.
  right. right. split; [exact E2|reflexivity].
Qed.

Lemma ratio_mono (w1 w2 f : Z) :
  (0 < f)%Z -> (w1 <= w2)%Z ->
  inject_Z w1 / inject_Z f <= inject_Z w2 / inject_Z f.
Proof.
  intros Hf Hw. unfold Qdiv.
  apply Qmult_le_compat_r.
  - now rewrite <- Zle_Qle.
  - apply Qinv_le_0_compat. change 0 with (inject_Z 0).
    rewrite <- Zle_Qle. lia.
Qed.

Lemma ratio_ge_1 (w f : Z) :
  (0 < f)%Z -> (f <= w)%Z -> 1 <= inject_Z w / inject_Z f.
Proof.
  intros Hf Hw. apply Qle_shift_div_l.
  - change 0 with (inject_Z 0). now rewrite <- Zlt_Qlt.
  - rewrite Qmult_1_l. now rewrite <- Zle_Qle.
Qed.

Lemma ratio_0 (f : Z) : inject_Z 0 / inject_Z f == 0.
Proof. unfold Qdiv. apply Qmult_0_l. Qed.

Lemma ratio_nonpos (w f : Z) :
  (f < 0)%Z -> (0 <= w)%Z -> inject_Z w / inject_Z f <= 0.
Proof.
  intros Hf Hw. unfold Qdiv, Qle, Qmult, Qinv, inject_Z. simpl.
  destruct f as [|p|p]; try lia. simpl. nia.
Qed.

(** C5: for a non-negative box width and a positive frame width the distance
    is the Very Close value when the ratio exceeds 0.8, the Close value when
    it is in (0.4, 0.8], and the Safe value when it is at most 0.4; so ratio
    0.8 gives Close, ratio 0.4 gives Safe, a box at least as wide as the frame
    gives Very Close, and a box of width 0 gives Safe. *)
Theorem estimate_distance_bands (box_width frame_width : Z) :
  (0 <= box_width)%Z -> (0 < frame_width)%Z ->
  let ratio := inject_Z box_width / inject_Z frame_width in
  (0.8 < ratio ->
   estimate_distance box_width frame_width = Normal (meters VeryClose)) /\
  (0.4 < ratio /\ ratio <= 0.8 ->
   estimate_distance box_width frame_width = Normal (meters Close)) /\
  (ratio <= 0.4 ->
   estimate_distance box_width frame_width = Normal (meters Safe)) /\
  (ratio == 0.8 ->
   estimate_distance box_width frame_width = Normal (meters Close)) /\
  (ratio == 0.4 ->
   estimate_distance box_width frame_width = Normal (meters Safe)) /\
  ((frame_width <= box_width)%Z ->
   estimate_distance box_width frame_width = Normal (meters VeryClose)) /\
  (box_width = 0%Z ->
   estimate_distance box_width frame_width = Normal (meters Safe)).
Proof.
  intros Hw Hf ratio.
  assert (Hf0 : frame_width <> 0%Z) by lia.
  pose proof (ratio_ge_1 box_width frame_width Hf) as Hge.
  pose proof (ratio_0 frame_width) as H0.
  pose proof (estimate_distance_cases box_width frame_width Hf0) as Hc.
  fold ratio in Hge. cbv zeta in Hc. fold ratio in Hc.
  repeat split.
  - intros H. destruct Hc as [[_ ->]|[(_ & ? & _)|[? _]]]; [reflexivity|lra..].
  - intros [H1 H2].
    destruct Hc as [[? _]|[(_ & _ & ->)|[? _]]]; [lra|reflexivity|lra].
  - intros H. destruct Hc as [[? _]|[(? & _ & _)|[_ ->]]]; [lra..|reflexivity].
  - intros H.
    destruct Hc as [[? _]|[(_ & _ & ->)|[? _]]]; [lra|reflexivity|lra].
  - intros H. destruct Hc as [[? _]|[(? & _ & _)|[_ ->]]]; [lra..|reflexivity].
  - intros H. specialize (Hge H).
    destruct Hc as [[_ ->]|[(_ & ? & _)|[? _]]]; [reflexivity|lra..].
  - intros ->. subst ratio.
    destruct Hc as [[? _]|[(? & _ & _)|[_ ->]]]; [lra..|reflexivity].
Qed.

Lemma estimate_distance_bands_witness :
  (0 <= 1024)%Z /\ (0 < 1280)%Z /\
  estimate_distance 1024 1280 = Normal (meters Close).
Proof.
  split; [lia|]. split; [lia|].
  apply (estimate_distance_bands 1024 1280); [lia|lia|].
  vm_compute. reflexivity.
Defined.

(** C9: for a positive frame width, a wider box is never estimated farther
    away: the band of the wider box is at most the band of the narrower one in
    the order VeryClose < Close < Safe, and so is the distance in meters. *)
Theorem estimate_distance_monotone (w1 w2 frame_width : Z) :
  (0 < frame_width)%Z -> (w1 <= w2)%Z ->
  exists b1 b2 : DistanceBand,
    estimate_distance w1 frame_width = Normal (meters b1) /\
    estimate_distance w2 frame_width = Normal (meters b2) /\
    (band_rank b2 <= band_rank b1)%nat /\
    meters b2 <= meters b1.
Proof.
  intros Hf Hw.
  assert (Hf0 : frame_width <> 0%Z) by lia.
  pose proof (ratio_mono w1 w2 frame_width Hf Hw) as Hr.
  destruct (estimate_distance_cases w1 frame_width Hf0)
    as [[H1 ->]|[(H1 & H1' & ->)|[H1 ->]]];
  destruct (estimate_distance_cases w2 frame_width Hf0)
    as [[H2 ->]|[(H2 & H2' & ->)|[H2 ->]]];
  try lra;
  eexists _, _; (split; [reflexivity|]); (split; [reflexivity|]);
  (split; [simpl; lia|unfold meters; lra]).
Qed.

Lemma estimate_distance_monotone_witness :
  (0 < 1280)%Z /\ (512 <= 1100)%Z /\
  exists b1 b2 : DistanceBand,
    estimate_distance 512 1280 = Normal (meters b1) /\
    estimate_distance 1100 1280 = Normal (meters b2) /\
    (band_rank b2 <= band_rank b1)%nat /\
    meters b2 <= meters b1.
Proof.
  split; [lia|]. split; [lia|].
  apply (estimate_distance_monotone 512 1100 1280); lia.
Defined.




(** ** Division by a zero frame width *)


(** ** The cooldown gate *)

Lemma trigger_bone_conduction_eq (message : string) (self : VantageSystem)
    (w : World) :
  trigger_bone_conduction message self w =
  let now := time_source w (time_calls w) in
  if Qgtb (now - last_audio_time self) AUDIO_COOLDOWN
  then (Normal tt, {| last_audio_time := now |},
        write [BoneConductionAudio message] (tick w))
  else (Normal tt, self, tick w).
Proof.
  unfold trigger_bone_conduction, bind, time_time, get_last_audio_time.
  cbv zeta.
  destruct (Qgtb _ AUDIO_COOLDOWN); reflexivity.
Qed.

Lemma spoke_write (w : World) (e : Event) :
  spoke w (write [e] (tick w)) = true.
Proof.
  unfold spoke. simpl. rewrite length_app. simpl.
  apply Nat.ltb_lt. lia.
Qed.

Lemma spoke_tick (w : World) : spoke w (tick w) = false.
Proof. unfold spoke. simpl. apply Nat.ltb_irrefl. Qed.

Lemma should_alert_eq (message : string) (self : VantageSystem) (w : World) :
  should_alert message self w =
  let now := time_source w (time_calls w) in
  if Qgtb (now - last_audio_time self) AUDIO_COOLDOWN
  then (true, {| last_audio_time := now |})
  else (false, self).
Proof.
  unfold should_alert. rewrite trigger_bone_conduction_eq. cbv zeta.
  destruct (Qgtb _ AUDIO_COOLDOWN).
  - now rewrite spoke_write.
  - now rewrite spoke_tick.
Qed.

(** C1: a call at time [now] speaks and sets [last_audio_time] to [now]
    exactly when [now - last_audio_time > AUDIO_COOLDOWN], strictly; when the
    difference is equal to the cooldown, smaller or negative, the call does
    not speak and leaves the object and the output as they were. *)
Theorem should_alert_iff (message : string) (self : VantageSystem) (w : World) :
  let now := time_source w (time_calls w) in
  (should_alert message self w = (true, {| last_audio_time := now |}) <->
   AUDIO_COOLDOWN < now - last_audio_time self) /\
  (fst (should_alert message self w) = true <->
   AUDIO_COOLDOWN < now - last_audio_time self) /\
  (now - last_audio_time self <= AUDIO_COOLDOWN ->
   should_alert message self w = (false, self) /\
   trigger_bone_conduction message self w = (Normal tt, self, tick w)) /\
  (fst (should_alert message self w) = false ->
   snd (should_alert message self w) = self /\
   output (snd (trigger_bone_conduction message self w)) = output w).
Proof.
  intros now.
  rewrite should_alert_eq, trigger_bone_conduction_eq. cbv zeta. fold now.
  destruct (Qgtb (now - last_audio_time self) AUDIO_COOLDOWN) eqn:E.
  - apply Qgtb_true in E. simpl.
    split; [tauto|]. split; [tauto|].
    split; [|discriminate].
    intros H. exfalso. exact (Qlt_not_le _ _ E H).
  - apply Qgtb_false in E. simpl.
    split.
    { split; [discriminate|]. intros H. exfalso. exact (Qlt_not_le _ _ H E). }
    split.
    { split; [discriminate|]. intros H. exfalso. exact (Qlt_not_le _ _ H E). }
    split; intros _; split; reflexivity.
Qed.

Lemma should_alert_iff_witness :
  should_alert "Car (Dynamic)" init (clock_at 10)
  = (true, {| last_audio_time := 10 |}) /\
  should_alert "Car (Dynamic)" {| last_audio_time := 10 |} (clock_at 12)
  = (false, {| last_audio_time := 10 |}).
Proof.
  split.
  - apply (proj1 (should_alert_iff "Car (Dynamic)" init (clock_at 10))).
    vm_compute. reflexivity.
  - apply (should_alert_iff "Car (Dynamic)" {| last_audio_time := 10 |}
             (clock_at 12)).
    vm_compute. discriminate.
Defined.

(** Two calls exactly one cooldown apart: the second is suppressed; a little
    more than one cooldown apart: both speak. *)
Example two_calls_at_the_boundary :
  call_history ["Car (Dynamic)"; "Car (Dynamic)"]%string init
    {| time_source := fun k => if (k =? 0)%nat then 10 else 12;
       time_calls := 0; output := [] |}
  = [(10, true); (12, false)] /\
  call_history ["Car (Dynamic)"; "Car (Dynamic)"]%string init
    {| time_source := fun k => if (k =? 0)%nat then 10 else 12.001;
       time_calls := 0; output := [] |}
  = [(10, true); (12.001, true)].
Proof. split; reflexivity. Qed.

Lemma call_history_cons (m : string) (ms : list string)
    (self : VantageSystem) (w : World) :
  call_history (m :: ms) self w =
  let now := time_source w (time_calls w) in
  if Qgtb (now - last_audio_time self) AUDIO_COOLDOWN
  then (now, true) ::
       call_history ms {| last_audio_time := now |}
         (write [BoneConductionAudio m] (tick w))
  else (now, false) :: call_history ms self (tick w).
Proof.
  cbn [call_history]. rewrite trigger_bone_conduction_eq. cbv zeta.
  destruct (Qgtb _ AUDIO_COOLDOWN).
  - now rewrite spoke_write.
  - now rewrite spoke_tick.
Qed.

(** A call that speaks does so more than one cooldown after the time the
    object held when the sequence started. *)
Lemma spoken_after_last (ms : list string) :
  forall (self : VantageSystem) (w : World) (j : nat) (tj : Q),
    call_history ms self w !! j = Some (tj, true) ->
    AUDIO_COOLDOWN < tj - last_audio_time self.
Proof.
  induction ms as [|m ms IH]; intros self w j tj H.
  - destruct j; discriminate.
  - rewrite call_history_cons in H. cbv zeta in H.
    destruct (Qgtb _ AUDIO_COOLDOWN) eqn:E.
    + apply Qgtb_true in E.
      destruct j as [|j]; simpl in H.
      * injection H as <-. exact E.
      * apply IH in H. simpl in H.
        unfold AUDIO_COOLDOWN in *. lra.
    + destruct j as [|j]; simpl in H; [discriminate|].
      apply IH in H. exact H.
Qed.

(** C3: in any sequence of calls of [trigger_bone_conduction] on one object,
    whatever the messages, two calls that both speak read times more than
    [AUDIO_COOLDOWN] apart.  This holds from every starting object (the
    initial one included) and for every clock, non-decreasing or not. *)
Theorem spoken_calls_are_a_cooldown_apart (messages : list string)
    (self : VantageSystem) (w : World) (i j : nat) (ti tj : Q) :
  (i < j)%nat ->
  call_history messages self w !! i = Some (ti, true) ->
  call_history messages self w !! j = Some (tj, true) ->
  AUDIO_COOLDOWN < tj - ti.
Proof.
  revert self w i j.
  induction messages as [|m ms IH]; intros self w i j Hij Hi Hj.
  - destruct i; discriminate.
  - destruct j as [|j]; [lia|].
    rewrite call_history_cons in Hi, Hj. cbv zeta in Hi, Hj.
    destruct (Qgtb _ AUDIO_COOLDOWN) eqn:E; simpl in Hj.
    + destruct i as [|i]; simpl in Hi.
      * injection Hi as <-.
        apply spoken_after_last in Hj. exact Hj.
      * eapply (fun s v => IH s v i j); [lia|exact Hi|exact Hj].
    + destruct i as [|i]; simpl in Hi; [discriminate|].
      eapply (fun s v => IH s v i j); [lia|exact Hi|exact Hj].
Qed.

Lemma spoken_calls_are_a_cooldown_apart_witness :
  call_history
    ["Car (Dynamic)"; "Pedestrian (Dynamic)"; "Bus (Dynamic)";
     "Obstacle (Chair)"]%string init (clock_from 5 1)
  = [(5, true); (6, false); (7, false); (8, true)] /\
  AUDIO_COOLDOWN < 8 - 5.
Proof.
  split; [reflexivity|].
  apply (spoken_calls_are_a_cooldown_apart
           ["Car (Dynamic)"; "Pedestrian (Dynamic)"; "Bus (Dynamic)";
            "Obstacle (Chair)"]%string init (clock_from 5 1) 0 3 5 8);
    [lia|reflexivity|reflexivity].
Defined.

(** ** The detection loop *)

Lemma classify_is_hazard (box : Box) :
  classify (int (cls box)) (conf box) =
  if is_hazard (round_conf (conf box)) (int (cls box))
  then HAZARD_MAP !! int (cls box) else None.
Proof. reflexivity. Qed.

Lemma is_hazard_lookup (c : Q) (cls_id : Z) :
  is_hazard c cls_id = true -> is_Some (HAZARD_MAP !! cls_id).
Proof.
  unfold is_hazard. intros H. apply andb_true_iff in H as [_ H].
  now apply dict_contains_spec.
Qed.

(** One turn of the inner loop, by cases on the filter and on the division. *)
Lemma process_box_eq (width : Z) (box : Box) (self : VantageSystem)
    (w : World) :
  process_box width box self w =
  match classify (int (cls box)) (conf box) with
  | None => (Normal tt, self, w)
  | Some _ =>
      match estimate_distance (obj_width box) width with
      | Raised e => (Raised e, self, w)
      | Normal _ =>
          match alert_request width box with
          | Some label =>
              trigger_bone_conduction label self
                (write (annotation width box) w)
          | None => (Normal tt, self, write (annotation width box) w)
          end
      end
  end.
Proof.
  unfold process_box, alert_request, annotation, obj_width.
  rewrite classify_is_hazard.
  destruct (is_hazard _ _) eqn:E; [|reflexivity].
  destruct (is_hazard_lookup _ _ E) as [label Hl].
  unfold dict_getitem, lift, bind. rewrite Hl.
  destruct (xyxy box) as [[[x1 y1] x2] y2].
  destruct (estimate_distance _ width) as [d|e]; [|reflexivity].
  unfold emit, write. simpl. rewrite <- app_assoc. simpl.
  destruct (Qltb d 2.0); reflexivity.
Qed.

Lemma annotation_drawings (width : Z) (box : Box) :
  drawings (annotation width box) = annotation width box /\
  audio_messages (annotation width box) = [].
Proof.
  unfold annotation.
  destruct (classify _ _); [|split; reflexivity].
  destruct (estimate_distance _ _); [|split; reflexivity].
  destruct (xyxy box) as [[[x1 y1] x2] y2]. split; reflexivity.
Qed.

Lemma drawings_app (l1 l2 : list Event) :
  drawings (l1 ++ l2) = drawings l1 ++ drawings l2.
Proof. apply List.filter_app. Qed.

Lemma audio_messages_app (l1 l2 : list Event) :
  audio_messages (l1 ++ l2) = audio_messages l1 ++ audio_messages l2.
Proof. apply omap_app. Qed.

Lemma for_each_app {A} (body : A -> M unit) (l1 l2 : list A)
    (self : VantageSystem) (w : World) :
  for_each body (l1 ++ l2) self w =
  (for_each body l1 ;; for_each body l2) self w.
Proof.
  revert self w. induction l1 as [|x l1 IH]; intros self w; simpl.
  - reflexivity.
  - unfold bind in *. destruct (body x self w) as [[[[]|e] self1] w1].
    + apply IH.
    + reflexivity.
Qed.

Lemma process_detections_concat (width : Z) (results : list (list Box))
    (self : VantageSystem) (w : World) :
  process_detections width results self w =
  for_each (process_box width) (concat results) self w.
Proof.
  unfold process_detections. revert self w.
  induction results as [|boxes results IH]; intros self w; simpl.
  - reflexivity.
  - rewrite for_each_app. unfold bind.
    destruct (for_each (process_box width) boxes self w)
      as [[[[]|e] self1] w1]; [apply IH|reflexivity].
Qed.

Lemma world_eq (w1 w2 : World) :
  time_source w1 = time_source w2 -> time_calls w1 = time_calls w2 ->
  output w1 = output w2 -> w1 = w2.
Proof. destruct w1, w2. simpl. intros -> -> ->. reflexivity. Qed.

Lemma write_nil (w : World) : write [] w = w.
Proof. apply world_eq; simpl; auto using app_nil_r. Qed.

Lemma ticks_fields (n : nat) (w : World) :
  time_source (Nat.iter n tick w) = time_source w /\
  time_calls (Nat.iter n tick w) = (n + time_calls w)%nat /\
  output (Nat.iter n tick w) = output w.
Proof.
  induction n as [|n (IH1 & IH2 & IH3)]; simpl; [tauto|].
  rewrite IH1, IH2, IH3. tauto.
Qed.

Lemma write_ticks_fields (evs : list Event) (n : nat) (w : World) :
  time_source (write evs (Nat.iter n tick w)) = time_source w /\
  time_calls (write evs (Nat.iter n tick w)) = (n + time_calls w)%nat /\
  output (write evs (Nat.iter n tick w)) = output w ++ evs.
Proof.
  destruct (ticks_fields n w) as (H1 & H2 & H3). simpl.
  rewrite H1, H2, H3. tauto.
Qed.

Lemma write_ticks_write (e1 e2 : list Event) (n : nat) (w : World) :
  write e2 (Nat.iter n tick (write e1 w)) = write (e1 ++ e2) (Nat.iter n tick w).
Proof.
  destruct (write_ticks_fields e2 n (write e1 w)) as (H1 & H2 & H3).
  destruct (write_ticks_fields (e1 ++ e2) n w) as (K1 & K2 & K3).
  apply world_eq; rewrite ?H1, ?H2, ?H3, ?K1, ?K2, ?K3; simpl;
    auto using app_assoc.
Qed.

Lemma write_ticks_tick (evs : list Event) (n : nat) (w : World) :
  write evs (Nat.iter n tick (tick w)) = write evs (Nat.iter (S n) tick w).
Proof.
  destruct (write_ticks_fields evs n (tick w)) as (H1 & H2 & H3).
  destruct (write_ticks_fields evs (S n) w) as (K1 & K2 & K3).
  apply world_eq; rewrite ?H1, ?H2, ?H3, ?K1, ?K2, ?K3; simpl; auto.
Qed.

Lemma alert_requests_cons (width : Z) (box : Box) (boxes : list Box) :
  alert_requests width (box :: boxes) =
  match alert_request width box with
  | Some label => label :: alert_requests width boxes
  | None => alert_requests width boxes
  end.
Proof. reflexivity. Qed.

Lemma estimate_distance_nonzero (box_width frame_width : Z) :
  frame_width <> 0%Z ->
  exists b : DistanceBand,
    estimate_distance box_width frame_width = Normal (meters b).
Proof.
  intros Hf.
  destruct (estimate_distance_cases box_width frame_width Hf)
    as [[_ H]|[(_ & _ & H)|[_ H]]]; eauto.
Qed.

(** With a non-zero frame width the body never raises: it draws the
    annotation and then, for a close hazard, calls the audio hook. *)
Lemma process_box_nonzero (width : Z) (box : Box) (self : VantageSystem)
    (w : World) :
  width <> 0%Z ->
  process_box width box self w =
  match alert_request width box with
  | Some label =>
      trigger_bone_conduction label self (write (annotation width box) w)
  | None => (Normal tt, self, write (annotation width box) w)
  end.
Proof.
  intros Hw. rewrite process_box_eq.
  destruct (classify (int (cls box)) (conf box)) as [label|] eqn:Hc.
  - destruct (estimate_distance_nonzero (obj_width box) width Hw) as [b ->].
    reflexivity.
  - unfold alert_request, annotation. rewrite Hc. now rewrite write_nil.
Qed.

Lemma cooldown_just_spoken (now : Q) : Qgtb (now - now) AUDIO_COOLDOWN = false.
Proof. apply Qgtb_false. unfold AUDIO_COOLDOWN. lra. Qed.

(** The inner loop on a frame of non-zero width: it ends normally, having
    read the clock once per alert request and drawn every annotation. *)
Lemma process_boxes_nonzero (width : Z) :
  width <> 0%Z ->
  forall (boxes : list Box) (self : VantageSystem) (w : World),
  exists (self' : VantageSystem) (new : list Event),
    for_each (process_box width) boxes self w =
      (Normal tt, self',
       write new (Nat.iter (length (alert_requests width boxes)) tick w)) /\
    drawings new = flat_map (annotation width) boxes /\
    (alert_requests width boxes = [] ->
     self' = self /\ audio_messages new = []) /\
    (forall now : Q,
       (forall k : nat, time_source w k = now) ->
       audio_messages new =
         if Qgtb (now - last_audio_time self) AUDIO_COOLDOWN
         then take 1 (alert_requests width boxes) else []).
Proof.
  intros Hw. induction boxes as [|box boxes IH]; intros self w.
  { exists self, []. simpl. rewrite write_nil.
    repeat split; auto. intros now _. now destruct (Qgtb _ _). }
  cbn [for_each]. unfold bind. rewrite process_box_nonzero by exact Hw.
  rewrite alert_requests_cons.
  destruct (annotation_drawings width box) as [Hd Ha].
  set (ann := annotation width box) in *.
  destruct (alert_request width box) as [label|] eqn:Hr.
  - rewrite trigger_bone_conduction_eq. cbv zeta.
    change (time_source (write ann w)) with (time_source w).
    change (time_calls (write ann w)) with (time_calls w).
    destruct (Qgtb (time_source w (time_calls w) - last_audio_time self)
                AUDIO_COOLDOWN) eqn:E.
    + destruct (IH {| last_audio_time := time_source w (time_calls w) |}
                  (write [BoneConductionAudio label] (tick (write ann w))))
        as (self' & new & Hrun & Hdraw & _ & Hnow).
      exists self', (ann ++ [BoneConductionAudio label] ++ new).
      split.
      { rewrite Hrun. f_equal.
        rewrite (write_ticks_write [BoneConductionAudio label]).
        change (tick (write ann w)) with (write ann (tick w)).
        rewrite write_ticks_write, write_ticks_tick. reflexivity. }
      split.
      { rewrite !drawings_app, Hd, Hdraw. reflexivity. }
      split; [discriminate|].
      intros now Hshared.
      rewrite !audio_messages_app, Ha.
      rewrite (Hnow now) by (intros k; apply Hshared).
      simpl. rewrite Hshared in E |- *. rewrite E.
      now rewrite cooldown_just_spoken.
    + destruct (IH self (tick (write ann w)))
        as (self' & new & Hrun & Hdraw & _ & Hnow).
      exists self', (ann ++ new).
      split.
      { rewrite Hrun. f_equal.
        change (tick (write ann w)) with (write ann (tick w)).
        rewrite write_ticks_write, write_ticks_tick. reflexivity. }
      split.
      { rewrite drawings_app, Hd, Hdraw. reflexivity. }
      split; [discriminate|].
      intros now Hshared.
      rewrite audio_messages_app, Ha.
      rewrite (Hnow now) by (intros k; apply Hshared).
      rewrite Hshared in E. rewrite E. reflexivity.
  - destruct (IH self (write ann w))
      as (self' & new & Hrun & Hdraw & Hnone & Hnow).
    exists self', (ann ++ new).
    split.
    { rewrite Hrun. f_equal. apply write_ticks_write. }
    split.
    { rewrite drawings_app, Hd, Hdraw. reflexivity. }
    split.
    { intros Hnil. destruct (Hnone Hnil) as [-> Hau].
      split; [reflexivity|]. now rewrite audio_messages_app, Ha, Hau. }
    intros now Hshared.
    rewrite audio_messages_app, Ha.
    rewrite (Hnow now) by (intros k; apply Hshared). reflexivity.
Qed.

(** On a frame of width zero the first detection the filter lets through
    raises, before anything is drawn or said. *)
Lemma process_boxes_zero (boxes : list Box) (self : VantageSystem) (w : World) :
  for_each (process_box 0) boxes self w =
  (if existsb accepted boxes then Raised ZeroDivisionError else Normal tt,
   self, w).
Proof.
  induction boxes as [|box boxes IH]; [reflexivity|].
  cbn [for_each existsb]. unfold bind, accepted in *.
  rewrite process_box_eq, estimate_distance_zero.
  destruct (classify _ _); [reflexivity|exact IH].
Qed.

Lemma alert_requests_zero (boxes : list Box) : alert_requests 0 boxes = [].
Proof.
  induction boxes as [|box boxes IH]; [reflexivity|].
  rewrite alert_requests_cons. unfold alert_request.
  rewrite estimate_distance_zero. now destruct (classify _ _).
Qed.

Lemma run_zero_width (c : Capture) (feed : list Capture)
    (self : VantageSystem) (w : World) :
  success c = true -> frame_width c = 0%Z ->
  existsb accepted (concat (results c)) = true ->
  run (c :: feed) self w = (Raised ZeroDivisionError, self, w).
Proof.
  intros Hs Hw Ha. unfold run. cbn [run_loop]. rewrite Hs. cbn [negb].
  unfold bind. rewrite process_detections_concat, Hw, process_boxes_zero, Ha.
  reflexivity.
Qed.

(** C6, as the code has it: [estimate_distance] does not check the frame
    width.  A zero frame width makes the division raise ZeroDivisionError; a
    non-zero one, negative included, never raises and gives one of the three
    distances (the Safe one for a negative frame width and a non-negative box
    width).  Nothing catches the exception: a frame of width zero with a
    detection that passes the filter ends [run] with it, later frames
    unprocessed. *)
Theorem estimate_distance_unguarded (box_width width : Z) :
  (width = 0%Z ->
   estimate_distance box_width width = Raised ZeroDivisionError) /\
  (width <> 0%Z ->
   exists b : DistanceBand,
     estimate_distance box_width width = Normal (meters b)) /\
  ((width < 0)%Z -> (0 <= box_width)%Z ->
   estimate_distance box_width width = Normal (meters Safe)) /\
  (forall (c : Capture) (feed : list Capture) (self : VantageSystem)
          (w : World),
     success c = true -> frame_width c = 0%Z ->
     existsb accepted (concat (results c)) = true ->
     run (c :: feed) self w = (Raised ZeroDivisionError, self, w)).
Proof.
  split; [intros ->; apply estimate_distance_zero|].
  split; [apply estimate_distance_nonzero|].
  split; [|exact run_zero_width].
  intros Hf Hw.
  assert (Hf0 : width <> 0%Z) by lia.
  pose proof (ratio_nonpos box_width width Hf Hw) as Hr.
  destruct (estimate_distance_cases box_width width Hf0)
    as [[? _]|[(? & _ & _)|[_ ->]]]; [lra..|reflexivity].
Qed.

Lemma estimate_distance_unguarded_witness :
  estimate_distance 1100 0 = Raised ZeroDivisionError /\
  estimate_distance 1100 (-1280) = Normal (meters Safe).
Proof.
  split.
  - apply (estimate_distance_unguarded 1100 0). reflexivity.
  - apply (estimate_distance_unguarded 1100 (-1280)); lia.
Defined.

(** C6 as stated fails: with frame width 0 the division by zero is performed
    and raises ZeroDivisionError, with a negative frame width nothing is
    raised, and the exception ends the whole run, the next frame included. *)
Lemma estimate_distance_guard_counterexample :
  estimate_distance 1100 0 = Raised ZeroDivisionError /\
  estimate_distance 1100 (-1280) = Normal 3.0 /\
  run [mkCapture true 0 [[pedestrian_near]] 0;
       mkCapture true 1280 [[pedestrian_near]] 0] init (clock_at 10)
  = (Raised ZeroDivisionError, init, clock_at 10).
Proof. repeat split. Qed.

(** ** Annotation and alerting over a frame *)

Lemma annotation_accepted (width : Z) (box : Box) (label : string) :
  width <> 0%Z ->
  classify (int (cls box)) (conf box) = Some label ->
  exists b : DistanceBand,
    estimate_distance (obj_width box) width = Normal (meters b) /\
    annotation width box =
      let '(x1, y1, x2, y2) := xyxy box in
      let color := if Qltb (meters b) 2.0 then RED else GREEN in
      [Rectangle (int x1) (int y1) (int x2) (int y2) color;
       PutText label (meters b) (int x1) (int y1 - 10)%Z color].
Proof.
  intros Hw Hc.
  destruct (estimate_distance_nonzero (obj_width box) width Hw) as [b Hb].
  exists b. split; [exact Hb|].
  unfold annotation. rewrite Hc, Hb. reflexivity.
Qed.

Lemma alert_requests_nil (width : Z) (boxes : list Box) :
  (forall box, In box boxes -> alert_request width box = None) ->
  alert_requests width boxes = [].
Proof.
  induction boxes as [|box boxes IH]; intros H; [reflexivity|].
  rewrite alert_requests_cons, (H box) by (left; reflexivity).
  apply IH. intros b Hb. apply H. now right.
Qed.

Lemma incl_drawings (evs : list Event) : incl (drawings evs) evs.
Proof. intros e He. apply List.filter_In in He. tauto. Qed.

(** C7: on a frame (of non-zero width) the loop ends normally and what it
    draws is, in order, the annotation of every detection: a rectangle and a
    text for each detection the filter accepts, whatever its distance, and
    nothing for the others.  If every accepted detection is at the Safe
    distance, the audio hook is never reached: nothing is said, the clock is
    not read and the object is unchanged. *)
Theorem annotation_is_unconditional (width : Z) (results : list (list Box))
    (self : VantageSystem) (w : World) :
  width <> 0%Z ->
  exists (self' : VantageSystem) (w' : World) (new : list Event),
    process_detections width results self w = (Normal tt, self', w') /\
    output w' = output w ++ new /\
    drawings new = flat_map (annotation width) (concat results) /\
    (forall (box : Box) (label : string),
       In box (concat results) ->
       classify (int (cls box)) (conf box) = Some label ->
       exists b : DistanceBand,
         estimate_distance (obj_width box) width = Normal (meters b) /\
         annotation width box =
           (let '(x1, y1, x2, y2) := xyxy box in
            let color := if Qltb (meters b) 2.0 then RED else GREEN in
            [Rectangle (int x1) (int y1) (int x2) (int y2) color;
             PutText label (meters b) (int x1) (int y1 - 10)%Z color]) /\
         incl (annotation width box) new) /\
    ((forall box : Box,
        In box (concat results) -> accepted box = true ->
        estimate_distance (obj_width box) width = Normal (meters Safe)) ->
     audio_messages new = [] /\ self' = self /\
     time_calls w' = time_calls w).
Proof.
  intros Hw.
  destruct (process_boxes_nonzero width Hw (concat results) self w)
    as (self' & new & Hrun & Hdraw & Hnone & _).
  destruct (write_ticks_fields new
              (length (alert_requests width (concat results))) w)
    as (_ & Hcalls & Hout).
  eexists self', _, new.
  split; [rewrite process_detections_concat; exact Hrun|].
  split; [exact Hout|].
  split; [exact Hdraw|].
  split.
  - intros box label Hin Hc.
    destruct (annotation_accepted width box label Hw Hc) as (b & Hb & Hann).
    exists b. split; [exact Hb|]. split; [exact Hann|].
    intros e He. apply incl_drawings. rewrite Hdraw.
    apply in_flat_map. eauto.
  - intros Hsafe.
    assert (Hnil : alert_requests width (concat results) = []).
    { apply alert_requests_nil. intros box Hin.
      specialize (Hsafe box Hin). unfold accepted in Hsafe.
      unfold alert_request.
      destruct (classify _ _); [|reflexivity].
      rewrite Hsafe by reflexivity. reflexivity. }
    destruct (Hnone Hnil) as [-> Hau].
    rewrite Hcalls, Hnil. auto.
Qed.

(** A frame with only a chair taking a tenth of the width: it is annotated
    (in green, at 3.0 m) and nothing is said. *)
Example chair_only_frame :
  process_detections 1280 [[chair_far]] init (clock_at 10)
  = (Normal tt, init,
     write [Rectangle 600 300 728 500 GREEN;
            PutText "Obstacle (Chair)" 3.0 600 290 GREEN] (clock_at 10)).
Proof. reflexivity. Qed.

Lemma annotation_is_unconditional_witness :
  exists (self' : VantageSystem) (w' : World) (new : list Event),
    process_detections 1280 [[chair_far]] init (clock_at 10)
    = (Normal tt, self', w') /\
    output w' = output (clock_at 10) ++ new /\
    drawings new = flat_map (annotation 1280) [chair_far] /\
    audio_messages new = [] /\ self' = init.
Proof.
  assert (Hw : 1280%Z <> 0%Z) by lia.
  destruct (annotation_is_unconditional 1280 [[chair_far]] init (clock_at 10)
              Hw)
    as (self' & w' & new & Hrun & Hout & Hdraw & _ & Hsafe).
  exists self', w', new.
  split; [exact Hrun|]. split; [exact Hout|]. split; [exact Hdraw|].
  assert (Hs : forall box : Box,
            In box (concat [[chair_far]]) -> accepted box = true ->
            estimate_distance (obj_width box) 1280 = Normal (meters Safe)).
  { intros box [<-|[]] _. reflexivity. }
  destruct (Hsafe Hs) as (Hau & Hself & _). auto.
Defined.

(** C2: within a frame during which the clock reads the same [now] at every
    call, at most one message is spoken; it is the request of the first
    detection, in input order, that reaches the audio hook, and it is spoken
    exactly when the cooldown has elapsed at [now].  Later detections reaching
    the hook say nothing, and every accepted detection is still drawn. *)
Theorem one_alert_per_frame (width : Z) (results : list (list Box))
    (self : VantageSystem) (w : World) (now : Q) :
  (forall k : nat, time_source w k = now) ->
  exists (r : Outcome unit) (self' : VantageSystem) (w' : World)
         (new : list Event),
    process_detections width results self w = (r, self', w') /\
    output w' = output w ++ new /\
    (length (audio_messages new) <= 1)%nat /\
    (forall m : string,
       In m (audio_messages new) ->
       head (alert_requests width (concat results)) = Some m) /\
    audio_messages new =
      (if Qgtb (now - last_audio_time self) AUDIO_COOLDOWN
       then take 1 (alert_requests width (concat results)) else []) /\
    (width <> 0%Z ->
     r = Normal tt /\
     drawings new = flat_map (annotation width) (concat results)).
Proof.
  intros Hshared.
  assert (Hone : forall l : list string,
            (length (take 1 l) <= 1)%nat /\
            forall m, In m (take 1 l) -> head l = Some m).
  { intros l. split.
    - destruct l as [|x l]; simpl; rewrite ?take_0; simpl; lia.
    - destruct l as [|x l]; simpl; [tauto|]. rewrite ?take_0.
      intros m [<-|[]]. reflexivity. }
  destruct (Z.eq_dec width 0%Z) as [->|Hw].
  - exists (if existsb accepted (concat results)
            then Raised ZeroDivisionError else Normal tt), self, w, [].
    rewrite process_detections_concat, process_boxes_zero.
    rewrite alert_requests_zero, app_nil_r. simpl.
    repeat split; try tauto; try lia.
    now destruct (Qgtb _ _).
  - destruct (process_boxes_nonzero width Hw (concat results) self w)
      as (self' & new & Hrun & Hdraw & _ & Hnow).
    destruct (write_ticks_fields new
                (length (alert_requests width (concat results))) w)
      as (_ & _ & Hout).
    specialize (Hnow now Hshared).
    eexists (Normal tt), self', _, new.
    split; [rewrite process_detections_concat; exact Hrun|].
    split; [exact Hout|].
    rewrite Hnow.
    destruct (Hone (alert_requests width (concat results))) as [Hlen Hhd].
    destruct (Qgtb _ _); simpl; repeat split; auto; try lia; tauto.
Qed.

(** A car and a pedestrian, both very close, in that order, at one clock
    reading: both are drawn (in red, at 0.5 m), only the car is announced. *)
Example car_then_pedestrian_frame :
  process_detections 1280 [[car_near; pedestrian_near]] init (clock_at 10)
  = (Normal tt, {| last_audio_time := 10 |},
     write [Rectangle 50 100 1250 700 RED;
            PutText "Car (Dynamic)" 0.5 50 90 RED;
            BoneConductionAudio "Car (Dynamic)";
            Rectangle 100 50 1200 700 RED;
            PutText "Pedestrian (Dynamic)" 0.5 100 40 RED]
       (tick (tick (clock_at 10)))).
Proof. reflexivity. Qed.

(** The same frame when the clock advances by 3 s between the two calls of
    the audio hook: both hazards are announced.  The bound of one message per
    frame rests on the clock reading the same time throughout the frame. *)
Example car_then_pedestrian_slow_frame :
  process_detections 1280 [[car_near; pedestrian_near]] init (clock_from 10 3)
  = (Normal tt, {| last_audio_time := 13 |},
     write [Rectangle 50 100 1250 700 RED;
            PutText "Car (Dynamic)" 0.5 50 90 RED;
            BoneConductionAudio "Car (Dynamic)";
            Rectangle 100 50 1200 700 RED;
            PutText "Pedestrian (Dynamic)" 0.5 100 40 RED;
            BoneConductionAudio "Pedestrian (Dynamic)"]
       (tick (tick (clock_from 10 3)))).
Proof. reflexivity. Qed.

Lemma one_alert_per_frame_witness :
  exists (r : Outcome unit) (self' : VantageSystem) (w' : World)
         (new : list Event),
    process_detections 1280 [[car_near; pedestrian_near]] init (clock_at 10)
    = (r, self', w') /\
    output w' = output (clock_at 10) ++ new /\
    audio_messages new = ["Car (Dynamic)"%string].
Proof.
  destruct (one_alert_per_frame 1280 [[car_near; pedestrian_near]] init
              (clock_at 10) 10 (fun _ => eq_refl))
    as (r & self' & w' & new & Hrun & Hout & _ & _ & Hau & _).
  exists r, self', w', new.
  split; [exact Hrun|]. split; [exact Hout|]. exact Hau.
Defined.

(** * Further properties of the code *)

(** ** Rounding of the confidence (line 101) *)




(** ** The proximity heuristic: scale, malformed boxes, colour *)

Lemma Qgtb_comp (x y t : Q) : x == y -> Qgtb x t = Qgtb y t.
Proof.
  intros H. unfold Qgtb. f_equal.
  apply Qleb_comp; [exact H|apply Qeq_refl].
Qed.

Lemma inject_Z_nonzero (z : Z) : z <> 0%Z -> ~ inject_Z z == 0.
Proof.
  intros Hz H. unfold Qeq in H. simpl in H. lia.
Qed.

(** X2: the estimate depends only on the ratio of the two widths: scaling
    the box width and the frame width by the same non-zero factor (another
    resolution of the same picture) gives the same distance. *)
Theorem estimate_distance_scale (k box_width width : Z) :
  k <> 0%Z -> width <> 0%Z ->
  estimate_distance (k * box_width) (k * width) =
  estimate_distance box_width width.
Proof.
  intros Hk Hw.
  assert (Hkw : (k * width)%Z <> 0%Z) by lia.
  unfold estimate_distance.
  rewrite !truediv_nonzero by assumption.
  assert (Hr : inject_Z (k * box_width) / inject_Z (k * width)
               == inject_Z box_width / inject_Z width).
  { rewrite !inject_Z_mult. field.
    split; apply inject_Z_nonzero; assumption. }
  rewrite (Qgtb_comp _ _ 0.8 Hr), (Qgtb_comp _ _ 0.4 Hr). reflexivity.
Qed.

Lemma estimate_distance_scale_witness :
  estimate_distance (3 * 1100) (3 * 1280) = estimate_distance 1100 1280.
Proof. apply (estimate_distance_scale 3 1100 1280); lia. Defined.






(** ** Truncation of the coordinates (line 113) *)

Lemma int_nonneg (x : Q) :
  0 <= x -> inject_Z (int x) <= x /\ x < inject_Z (int x) + 1.
Proof.
  destruct x as [n d]. unfold int, Qle, Qlt, Qplus, inject_Z. simpl.
  intros Hn.
  pose proof (Z.quot_rem' n (Z.pos d)) as Hq.
  pose proof (Z.rem_bound_pos n (Z.pos d) ltac:(lia) ltac:(lia)) as Hr.
  nia.
Qed.

Lemma int_nonpos (x : Q) :
  x <= 0 -> x <= inject_Z (int x) /\ inject_Z (int x) - 1 < x.
Proof.
  destruct x as [n d]. unfold int, Qle, Qlt, Qminus, Qplus, Qopp, inject_Z.
  simpl. intros Hn.
  pose proof (Z.quot_rem' n (Z.pos d)) as Hq.
  pose proof (Z.rem_bound_pos_neg n (Z.pos d) ltac:(lia) ltac:(lia)) as Hr.
  nia.
Qed.

(** X5: [int] truncates toward zero, so the width the loop computes from the
    truncated edges of a box with non-negative coordinates is within one
    pixel of the width [x2 - x1] of the box itself, and it is exactly that
    width when the edges are whole numbers. *)
Theorem obj_width_within_a_pixel (box : Box) :
  let '(x1, _, x2, _) := xyxy box in
  (0 <= x1 -> 0 <= x2 ->
   x2 - x1 - 1 < inject_Z (obj_width box) /\
   inject_Z (obj_width box) < x2 - x1 + 1) /\
  (forall a b : Z,
     x1 = inject_Z a -> x2 = inject_Z b -> obj_width box = (b - a)%Z).
Proof.
  unfold obj_width. destruct (xyxy box) as [[[x1 y1] x2] y2].
  split.
  - intros H1 H2.
    destruct (int_nonneg x1 H1) as [A1 B1].
    destruct (int_nonneg x2 H2) as [A2 B2].
    unfold Z.sub. rewrite inject_Z_plus, inject_Z_opp. lra.
  - intros a b -> ->. unfold int. simpl. now rewrite !Z.quot_1_r.
Qed.

Lemma obj_width_within_a_pixel_witness :
  inject_Z (obj_width (mkBox 0.9 2 (10.7, 0, 20.2, 5))) < 20.2 - 10.7 + 1.
Proof.
  apply (obj_width_within_a_pixel (mkBox 0.9 2 (10.7, 0, 20.2, 5)));
    discriminate.
Defined.

(** ** A frame as drawings plus a sequence of hook calls *)

Lemma for_each_trigger_cons (m : string) (ms : list string)
    (self : VantageSystem) (w : World) :
  for_each trigger_bone_conduction (m :: ms) self w =
  if Qgtb (time_source w (time_calls w) - last_audio_time self) AUDIO_COOLDOWN
  then for_each trigger_bone_conduction ms
         {| last_audio_time := time_source w (time_calls w) |}
         (write [BoneConductionAudio m] (tick w))
  else for_each trigger_bone_conduction ms self (tick w).
Proof.
  cbn [for_each]. unfold bind. rewrite trigger_bone_conduction_eq. cbv zeta.
  destruct (Qgtb _ AUDIO_COOLDOWN); reflexivity.
Qed.

Lemma after_calls_cons (m : string) (ms : list string)
    (self : VantageSystem) (w : World) :
  after_calls (m :: ms) self w =
  if Qgtb (time_source w (time_calls w) - last_audio_time self) AUDIO_COOLDOWN
  then after_calls ms {| last_audio_time := time_source w (time_calls w) |}
         (write [BoneConductionAudio m] (tick w))
  else after_calls ms self (tick w).
Proof.
  unfold after_calls. rewrite for_each_trigger_cons.
  destruct (Qgtb _ AUDIO_COOLDOWN); reflexivity.
Qed.

(** The decisions of the hook depend on the clock only, not on what has been
    output. *)
Lemma call_history_same_clock (ms : list string) :
  forall (self : VantageSystem) (w v : World),
    time_source w = time_source v -> time_calls w = time_calls v ->
    call_history ms self w = call_history ms self v.
Proof.
  induction ms as [|m ms IH]; intros self w v Hs Hc; [reflexivity|].
  rewrite !call_history_cons. cbv zeta. rewrite Hs, Hc.
  destruct (Qgtb _ AUDIO_COOLDOWN); f_equal; apply IH; simpl; congruence.
Qed.

Lemma after_calls_same_clock (ms : list string) :
  forall (self : VantageSystem) (w v : World),
    time_source w = time_source v -> time_calls w = time_calls v ->
    fst (after_calls ms self w) = fst (after_calls ms self v).
Proof.
  induction ms as [|m ms IH]; intros self w v Hs Hc; [reflexivity|].
  rewrite !after_calls_cons. rewrite Hs, Hc.
  destruct (Qgtb _ AUDIO_COOLDOWN); apply IH; simpl; congruence.
Qed.

Lemma annotation_frame_events (width : Z) (box : Box) :
  forallb is_frame_event (annotation width box) = true.
Proof.
  unfold annotation.
  destruct (classify _ _); [|reflexivity].
  destruct (estimate_distance _ _); [|reflexivity].
  destruct (xyxy box) as [[[x1 y1] x2] y2]. reflexivity.
Qed.

Lemma process_boxes_hook_calls (width : Z) :
  width <> 0%Z ->
  forall (boxes : list Box) (self : VantageSystem) (w : World),
  exists new : list Event,
    for_each (process_box width) boxes self w =
      (Normal tt, fst (after_calls (alert_requests width boxes) self w),
       write new (Nat.iter (length (alert_requests width boxes)) tick w)) /\
    drawings new = flat_map (annotation width) boxes /\
    audio_messages new =
      spoken_messages (alert_requests width boxes)
        (call_history (alert_requests width boxes) self w) /\
    forallb is_frame_event new = true.
Proof.
  intros Hw. induction boxes as [|box boxes IH]; intros self w.
  { exists []. simpl. rewrite write_nil. auto. }
  cbn [for_each]. unfold bind. rewrite process_box_nonzero by exact Hw.
  rewrite alert_requests_cons.
  destruct (annotation_drawings width box) as [Hd Ha].
  pose proof (annotation_frame_events width box) as Hf.
  set (ann := annotation width box) in *.
  destruct (alert_request width box) as [label|] eqn:Hr.
  - rewrite trigger_bone_conduction_eq, call_history_cons, after_calls_cons.
    cbv zeta.
    change (time_source (write ann w)) with (time_source w).
    change (time_calls (write ann w)) with (time_calls w).
    destruct (Qgtb (time_source w (time_calls w) - last_audio_time self)
                AUDIO_COOLDOWN) eqn:E.
    + destruct (IH {| last_audio_time := time_source w (time_calls w) |}
                  (write [BoneConductionAudio label] (tick (write ann w))))
        as (new & Hrun & Hdraw & Hau & Hfr).
      exists (ann ++ [BoneConductionAudio label] ++ new).
      split.
      { rewrite Hrun. f_equal; [f_equal|].
        - apply after_calls_same_clock; reflexivity.
        - rewrite (write_ticks_write [BoneConductionAudio label]).
          change (tick (write ann w)) with (write ann (tick w)).
          rewrite write_ticks_write, write_ticks_tick. reflexivity. }
      split; [rewrite !drawings_app, Hd, Hdraw; reflexivity|].
      split.
      { rewrite !audio_messages_app, Ha, Hau. simpl. f_equal. f_equal.
        apply call_history_same_clock; reflexivity. }
      rewrite !forallb_app, Hf, Hfr. reflexivity.
    + destruct (IH self (tick (write ann w)))
        as (new & Hrun & Hdraw & Hau & Hfr).
      exists (ann ++ new).
      split.
      { rewrite Hrun. f_equal; [f_equal|].
        - apply after_calls_same_clock; reflexivity.
        - change (tick (write ann w)) with (write ann (tick w)).
          rewrite write_ticks_write, write_ticks_tick. reflexivity. }
      split; [rewrite drawings_app, Hd, Hdraw; reflexivity|].
      split.
      { rewrite audio_messages_app, Ha, Hau. simpl. f_equal.
        apply call_history_same_clock; reflexivity. }
      rewrite forallb_app, Hf, Hfr. reflexivity.
  - destruct (IH self (write ann w)) as (new & Hrun & Hdraw & Hau & Hfr).
    exists (ann ++ new).
    split.
    { rewrite Hrun. f_equal; [f_equal|].
      - apply after_calls_same_clock; reflexivity.
      - apply write_ticks_write. }
    split; [rewrite drawings_app, Hd, Hdraw; reflexivity|].
    split.
    { rewrite audio_messages_app, Ha, Hau. simpl. f_equal.
      apply call_history_same_clock; reflexivity. }
    rewrite forallb_app, Hf, Hfr. reflexivity.
Qed.

(** ** Sequences of hook calls *)

Lemma spoken_messages_sublist (ms : list string) :
  forall h : list (Q * bool), sublist (spoken_messages ms h) ms.
Proof.
  induction ms as [|m ms IH]; intros h; simpl; [constructor|].
  destruct h as [|[t b] h]; [apply sublist_nil_l|].
  destruct b; [apply sublist_skip|apply sublist_cons]; apply IH.
Qed.

(** Readings that do not exceed the stored time by more than the cooldown
    leave the object alone and say nothing. *)
Lemma calls_within_cooldown (ms : list string) :
  forall (self : VantageSystem) (w : World),
    (forall k : nat,
       (time_calls w <= k < time_calls w + length ms)%nat ->
       time_source w k - last_audio_time self <= AUDIO_COOLDOWN) ->
    spoken_messages ms (call_history ms self w) = [] /\
    fst (after_calls ms self w) = self.
Proof.
  induction ms as [|m ms IH]; intros self w H; [split; reflexivity|].
  rewrite call_history_cons, after_calls_cons. cbv zeta.
  assert (E : Qgtb (time_source w (time_calls w) - last_audio_time self)
                AUDIO_COOLDOWN = false).
  { apply Qgtb_false. apply H. simpl. lia. }
  rewrite E. simpl. apply IH. simpl. intros k Hk. apply H. simpl. lia.
Qed.

Lemma calls_at_most_one (ms : list string) :
  forall (self : VantageSystem) (w : World),
    (forall i j : nat,
       (time_calls w <= i < j)%nat -> (j < time_calls w + length ms)%nat ->
       time_source w j - time_source w i <= AUDIO_COOLDOWN) ->
    (length (spoken_messages ms (call_history ms self w)) <= 1)%nat.
Proof.
  induction ms as [|m ms IH]; intros self w H; [simpl; lia|].
  rewrite call_history_cons. cbv zeta.
  destruct (Qgtb _ AUDIO_COOLDOWN); simpl.
  - destruct (calls_within_cooldown ms
                {| last_audio_time := time_source w (time_calls w) |}
                (write [BoneConductionAudio m] (tick w))) as [-> _];
      [|simpl; lia].
    simpl. intros k Hk. apply H; simpl; lia.
  - apply IH. simpl. intros i j Hi Hj. apply H; simpl; lia.
Qed.

(** The stored time never decreases, and when it changes it is one of the
    readings of the calls, more than a cooldown after the time stored
    before. *)
Lemma after_calls_last (ms : list string) :
  forall (self : VantageSystem) (w : World),
    fst (after_calls ms self w) = self \/
    exists k : nat,
      (time_calls w <= k < time_calls w + length ms)%nat /\
      last_audio_time (fst (after_calls ms self w)) = time_source w k /\
      AUDIO_COOLDOWN < time_source w k - last_audio_time self.
Proof.
  induction ms as [|m ms IH]; intros self w; [left; reflexivity|].
  rewrite after_calls_cons.
  destruct (Qgtb _ AUDIO_COOLDOWN) eqn:E.
  - apply Qgtb_true in E. right.
    destruct (IH {| last_audio_time := time_source w (time_calls w) |}
                (write [BoneConductionAudio m] (tick w)))
      as [->|(k & Hk & Hl & Hc)].
    + exists (time_calls w). simpl. split; [lia|]. split; [reflexivity|exact E].
    + exists k. simpl in *. split; [lia|]. split; [exact Hl|].
      unfold AUDIO_COOLDOWN in *. lra.
  - destruct (IH self (tick w)) as [->|(k & Hk & Hl & Hc)]; [now left|].
    right. exists k. simpl in *. split; [lia|]. split; assumption.
Qed.

Lemma call_history_length (ms : list string) :
  forall (self : VantageSystem) (w : World),
    length (call_history ms self w) = length ms.
Proof.
  induction ms as [|m ms IH]; intros self w; [reflexivity|].
  rewrite call_history_cons. cbv zeta.
  destruct (Qgtb _ AUDIO_COOLDOWN); simpl; now rewrite IH.
Qed.

Lemma spoken_nil_iff_unchanged (ms : list string) :
  forall (self : VantageSystem) (w : World),
    spoken_messages ms (call_history ms self w) = [] <->
    fst (after_calls ms self w) = self.
Proof.
  induction ms as [|m ms IH]; intros self w; [split; reflexivity|].
  rewrite call_history_cons, after_calls_cons. cbv zeta.
  destruct (Qgtb _ AUDIO_COOLDOWN) eqn:E; simpl; [|apply IH].
  apply Qgtb_true in E. split; [discriminate|].
  intros H. exfalso.
  destruct (after_calls_last ms
              {| last_audio_time := time_source w (time_calls w) |}
              (write [BoneConductionAudio m] (tick w)))
    as [Heq|(k & _ & Hl & Hc)].
  - rewrite Heq in H. rewrite <- H in E. simpl in E.
    unfold AUDIO_COOLDOWN in E. lra.
  - rewrite H in Hl. simpl in Hl, Hc. rewrite <- Hl in Hc.
    unfold AUDIO_COOLDOWN in *. lra.
Qed.

(** ** Frames *)

(** What a run of the detection loop on a frame of non-zero width is, given
    its result and the events it added. *)
Lemma frame_run (width : Z) (results : list (list Box))
    (self self' : VantageSystem) (w w' : World) (r : Outcome unit)
    (new : list Event) :
  width <> 0%Z ->
  process_detections width results self w = (r, self', w') ->
  output w' = output w ++ new ->
  r = Normal tt /\
  self' = fst (after_calls (alert_requests width (concat results)) self w) /\
  w' = write new
         (Nat.iter (length (alert_requests width (concat results))) tick w) /\
  drawings new = flat_map (annotation width) (concat results) /\
  audio_messages new =
    spoken_messages (alert_requests width (concat results))
      (call_history (alert_requests width (concat results)) self w) /\
  forallb is_frame_event new = true.
Proof.
  intros Hw Hrun Hout.
  destruct (process_boxes_hook_calls width Hw (concat results) self w)
    as (new0 & Hrun0 & Hdraw & Hau & Hfr).
  rewrite process_detections_concat, Hrun0 in Hrun.
  injection Hrun as <- <- <-.
  destruct (write_ticks_fields new0
              (length (alert_requests width (concat results))) w)
    as (_ & _ & Hout0).
  rewrite Hout0 in Hout. apply app_inv_head in Hout. subst new0.
  auto 10.
Qed.

(** X6: processing a frame of non-zero width is drawing the annotation of
    every detection and calling the audio hook once, in input order, for each
    detection that passes the filter and is closer than 2.0: the loop ends
    normally, the object is the one those calls leave, the clock has been
    read once per call, the announcements are the messages of the calls that
    spoke (a sublist of the requests), and nothing but rectangles, texts and
    announcements is output. *)
Theorem frame_is_drawings_and_hook_calls (width : Z)
    (results : list (list Box)) (self : VantageSystem) (w : World) :
  width <> 0%Z ->
  exists new : list Event,
    process_detections width results self w =
      (Normal tt,
       fst (after_calls (alert_requests width (concat results)) self w),
       write new
         (Nat.iter (length (alert_requests width (concat results))) tick w))
    /\
    drawings new = flat_map (annotation width) (concat results) /\
    audio_messages new =
      spoken_messages (alert_requests width (concat results))
        (call_history (alert_requests width (concat results)) self w) /\
    sublist (audio_messages new) (alert_requests width (concat results)) /\
    forallb is_frame_event new = true.
Proof.
  intros Hw.
  destruct (process_boxes_hook_calls width Hw (concat results) self w)
    as (new & Hrun & Hdraw & Hau & Hfr).
  exists new. rewrite process_detections_concat.
  split; [exact Hrun|]. split; [exact Hdraw|]. split; [exact Hau|].
  split; [|exact Hfr].
  rewrite Hau. apply spoken_messages_sublist.
Qed.

Lemma frame_is_drawings_and_hook_calls_witness :
  exists new : list Event,
    process_detections 1280 [[car_near]; [chair_far; pedestrian_near]] init
      (clock_from 10 3)
    = (Normal tt,
       fst (after_calls ["Car (Dynamic)"; "Pedestrian (Dynamic)"]%string init
              (clock_from 10 3)),
       write new (tick (tick (clock_from 10 3)))) /\
    audio_messages new = ["Car (Dynamic)"; "Pedestrian (Dynamic)"]%string.
Proof.
  assert (Hw : 1280%Z <> 0%Z) by lia.
  destruct (frame_is_drawings_and_hook_calls 1280
              [[car_near]; [chair_far; pedestrian_near]] init
              (clock_from 10 3) Hw)
    as (new & Hrun & _ & Hau & _).
  exists new. split; [exact Hrun|exact Hau].
Defined.

(** X7: on a frame of non-zero width during which the clock advances by at
    most the cooldown between any two of its readings, at most one message is
    announced, however many close hazards the frame holds. *)
Theorem at_most_one_alert_in_a_short_frame (width : Z)
    (results : list (list Box)) (self self' : VantageSystem) (w w' : World)
    (r : Outcome unit) (new : list Event) :
  width <> 0%Z ->
  (forall i j : nat,
     (time_calls w <= i < j)%nat ->
     (j < time_calls w + length (alert_requests width (concat results)))%nat ->
     time_source w j - time_source w i <= AUDIO_COOLDOWN) ->
  process_detections width results self w = (r, self', w') ->
  output w' = output w ++ new ->
  (length (audio_messages new) <= 1)%nat.
Proof.
  intros Hw Hspan Hrun Hout.
  destruct (frame_run _ _ _ _ _ _ _ _ Hw Hrun Hout)
    as (_ & _ & _ & _ & -> & _).
  now apply calls_at_most_one.
Qed.

Lemma at_most_one_alert_in_a_short_frame_witness :
  (length
     (audio_messages
        [Rectangle 50 100 1250 700 RED;
         PutText "Car (Dynamic)" 0.5 50 90 RED;
         BoneConductionAudio "Car (Dynamic)";
         Rectangle 100 50 1200 700 RED;
         PutText "Pedestrian (Dynamic)" 0.5 100 40 RED]) <= 1)%nat.
Proof.
  apply (at_most_one_alert_in_a_short_frame 1280
           [[car_near; pedestrian_near]] init {| last_audio_time := 10 |}
           (clock_from 10 1)
           (write [Rectangle 50 100 1250 700 RED;
                   PutText "Car (Dynamic)" 0.5 50 90 RED;
                   BoneConductionAudio "Car (Dynamic)";
                   Rectangle 100 50 1200 700 RED;
                   PutText "Pedestrian (Dynamic)" 0.5 100 40 RED]
              (tick (tick (clock_from 10 1))))
           (Normal tt)).
  - lia.
  - intros i j Hi Hj.
    assert (L : length (alert_requests 1280
                          (concat [[car_near; pedestrian_near]])) = 2%nat)
      by reflexivity.
    rewrite L in Hj. change (time_calls (clock_from 10 1)) with 0%nat in *.
    assert (Hi0 : i = 0%nat) by lia. assert (Hj1 : j = 1%nat) by lia.
    subst i j. vm_compute. discriminate.
  - reflexivity.
  - reflexivity.
Defined.

(** X8: on a frame of non-zero width during which no clock reading exceeds
    the stored time by more than the cooldown (in particular when the clock
    has gone backwards), nothing is announced and the object is unchanged,
    whatever the frame holds; the detections are still drawn. *)
Theorem frame_silent_within_cooldown (width : Z)
    (results : list (list Box)) (self self' : VantageSystem) (w w' : World)
    (r : Outcome unit) (new : list Event) :
  width <> 0%Z ->
  (forall k : nat,
     (time_calls w <= k <
        time_calls w + length (alert_requests width (concat results)))%nat ->
     time_source w k - last_audio_time self <= AUDIO_COOLDOWN) ->
  process_detections width results self w = (r, self', w') ->
  output w' = output w ++ new ->
  audio_messages new = [] /\ self' = self /\
  new = flat_map (annotation width) (concat results).
Proof.
  intros Hw Hwin Hrun Hout.
  destruct (frame_run _ _ _ _ _ _ _ _ Hw Hrun Hout)
    as (_ & -> & _ & Hdraw & Hau & Hfr).
  destruct (calls_within_cooldown _ _ _ Hwin) as [Hs Ha].
  rewrite Hs in Hau. split; [exact Hau|]. split; [exact Ha|].
  rewrite <- Hdraw. clear - Hau Hfr.
  induction new as [|e new IH]; [reflexivity|].
  destruct e; simpl in *; try discriminate; f_equal; auto.
Qed.

Lemma frame_silent_within_cooldown_witness :
  audio_messages
    [Rectangle 50 100 1250 700 RED; PutText "Car (Dynamic)" 0.5 50 90 RED]
  = [] /\
  {| last_audio_time := 10 |} = {| last_audio_time := 10 |} /\
  [Rectangle 50 100 1250 700 RED; PutText "Car (Dynamic)" 0.5 50 90 RED]
  = flat_map (annotation 1280) (concat [[car_near]]).
Proof.
  apply (frame_silent_within_cooldown 1280 [[car_near]]
           {| last_audio_time := 10 |} {| last_audio_time := 10 |}
           (clock_at 9)
           (write [Rectangle 50 100 1250 700 RED;
                   PutText "Car (Dynamic)" 0.5 50 90 RED]
              (tick (clock_at 9)))
           (Normal tt)).
  - lia.
  - intros k _. vm_compute. discriminate.
  - reflexivity.
  - reflexivity.
Defined.

(** X9: on a frame of non-zero width, when the first reading of the clock is
    more than the cooldown after the stored time, the first detection that
    passes the filter and is closer than 2.0 is announced, and it is the first
    announcement of the frame. *)
Theorem first_request_announced_after_cooldown (width : Z)
    (results : list (list Box)) (self self' : VantageSystem) (w w' : World)
    (r : Outcome unit) (new : list Event) (m : string) :
  width <> 0%Z ->
  head (alert_requests width (concat results)) = Some m ->
  AUDIO_COOLDOWN < time_source w (time_calls w) - last_audio_time self ->
  process_detections width results self w = (r, self', w') ->
  output w' = output w ++ new ->
  head (audio_messages new) = Some m /\
  time_source w (time_calls w) <= last_audio_time self'.
Proof.
  intros Hw Hhd Hcool Hrun Hout.
  destruct (frame_run _ _ _ _ _ _ _ _ Hw Hrun Hout)
    as (_ & -> & _ & _ & -> & _).
  destruct (alert_requests width (concat results)) as [|m' reqs];
    [discriminate|].
  injection Hhd as ->.
  rewrite call_history_cons, after_calls_cons. cbv zeta.
  apply Qgtb_true in Hcool. rewrite Hcool. simpl.
  split; [reflexivity|].
  destruct (after_calls_last reqs
              {| last_audio_time := time_source w (time_calls w) |}
              (write [BoneConductionAudio m] (tick w)))
    as [->|(k & _ & -> & Hc)]; simpl in *.
  - apply Qle_refl.
  - unfold AUDIO_COOLDOWN in Hc. lra.
Qed.

Lemma first_request_announced_after_cooldown_witness :
  head (audio_messages
          [Rectangle 50 100 1250 700 RED;
           PutText "Car (Dynamic)" 0.5 50 90 RED;
           BoneConductionAudio "Car (Dynamic)"])
  = Some "Car (Dynamic)"%string /\
  time_source (clock_at 10) (time_calls (clock_at 10))
  <= last_audio_time {| last_audio_time := 10 |}.
Proof.
  apply (first_request_announced_after_cooldown 1280 [[car_near]] init
           {| last_audio_time := 10 |} (clock_at 10)
           (write [Rectangle 50 100 1250 700 RED;
                   PutText "Car (Dynamic)" 0.5 50 90 RED;
                   BoneConductionAudio "Car (Dynamic)"]
              (tick (clock_at 10)))
           (Normal tt)).
  - lia.
  - reflexivity.
  - reflexivity.
  - reflexivity.
  - reflexivity.
Defined.

(** X10: over a frame of non-zero width, and for any clock, the stored time
    never decreases; it changes exactly when something is announced, and then
    it is one of the clock readings of the frame. *)
Theorem frame_last_audio_time (width : Z) (results : list (list Box))
    (self self' : VantageSystem) (w w' : World) (r : Outcome unit)
    (new : list Event) :
  width <> 0%Z ->
  process_detections width results self w = (r, self', w') ->
  output w' = output w ++ new ->
  last_audio_time self <= last_audio_time self' /\
  (self' = self <-> audio_messages new = []) /\
  (self' = self \/
   exists k : nat,
     (time_calls w <= k < time_calls w')%nat /\
     last_audio_time self' = time_source w k).
Proof.
  intros Hw Hrun Hout.
  destruct (frame_run _ _ _ _ _ _ _ _ Hw Hrun Hout)
    as (_ & -> & -> & _ & -> & _).
  set (reqs := alert_requests width (concat results)).
  destruct (write_ticks_fields new (length reqs) w) as (_ & -> & _).
  pose proof (after_calls_last reqs self w) as Hlast.
  split.
  { destruct Hlast as [->|(k & _ & -> & Hc)]; [apply Qle_refl|].
    unfold AUDIO_COOLDOWN in Hc. lra. }
  split; [symmetry; apply spoken_nil_iff_unchanged|].
  destruct Hlast as [->|(k & Hk & Hl & _)]; [now left|].
  right. exists k. split; [lia|exact Hl].
Qed.

Lemma frame_last_audio_time_witness :
  last_audio_time init <= last_audio_time {| last_audio_time := 13 |}.
Proof.
  apply (frame_last_audio_time 1280 [[car_near; pedestrian_near]] init
           {| last_audio_time := 13 |} (clock_from 10 3)
           (write [Rectangle 50 100 1250 700 RED;
                   PutText "Car (Dynamic)" 0.5 50 90 RED;
                   BoneConductionAudio "Car (Dynamic)";
                   Rectangle 100 50 1200 700 RED;
                   PutText "Pedestrian (Dynamic)" 0.5 100 40 RED;
                   BoneConductionAudio "Pedestrian (Dynamic)"]
              (tick (tick (clock_from 10 3))))
           (Normal tt)
           [Rectangle 50 100 1250 700 RED;
            PutText "Car (Dynamic)" 0.5 50 90 RED;
            BoneConductionAudio "Car (Dynamic)";
            Rectangle 100 50 1200 700 RED;
            PutText "Pedestrian (Dynamic)" 0.5 100 40 RED;
            BoneConductionAudio "Pedestrian (Dynamic)"]).
  - lia.
  - reflexivity.
  - reflexivity.
Defined.

Lemma alert_request_label (width : Z) (box : Box) (m : string) :
  alert_request width box = Some m ->
  HAZARD_MAP !! int (cls box) = Some m /\
  CONFIDENCE_THRESHOLD < conf box /\
  exists distance : Q,
    estimate_distance (obj_width box) width = Normal distance /\
    distance < 2.0.
Proof.
  unfold alert_request.
  destruct (classify _ _) as [label|] eqn:Hc; [|discriminate].
  destruct (estimate_distance _ _) as [d|e]; [|discriminate].
  destruct (Qltb d 2.0) eqn:Hd; [|discriminate].
  intros [= ->]. apply classify_Some in Hc as [Hconf Hl].
  split; [exact Hl|]. split; [exact Hconf|].
  exists d. split; [reflexivity|]. now apply Qltb_true.
Qed.

(** X11: every message announced while a frame of non-zero width is
    processed is the table label of a detection of that frame whose raw
    confidence exceeds the threshold and whose estimated distance is below
    2.0; nothing else is ever announced. *)
Theorem announcements_are_close_hazards (width : Z)
    (results : list (list Box)) (self self' : VantageSystem) (w w' : World)
    (r : Outcome unit) (new : list Event) (m : string) :
  width <> 0%Z ->
  process_detections width results self w = (r, self', w') ->
  output w' = output w ++ new ->
  In (BoneConductionAudio m) new ->
  exists box : Box,
    In box (concat results) /\
    HAZARD_MAP !! int (cls box) = Some m /\
    int (cls box) ∈ hazard_ids /\
    CONFIDENCE_THRESHOLD < conf box /\
    exists distance : Q,
      estimate_distance (obj_width box) width = Normal distance /\
      distance < 2.0.
Proof.
  intros Hw Hrun Hout Hin.
  destruct (frame_run _ _ _ _ _ _ _ _ Hw Hrun Hout)
    as (_ & _ & _ & _ & Hau & _).
  assert (Hm : m ∈ audio_messages new).
  { unfold audio_messages. apply list_elem_of_omap.
    exists (BoneConductionAudio m). split; [|reflexivity].
    now apply list_elem_of_In. }
  rewrite Hau in Hm.
  pose proof (spoken_messages_sublist
                (alert_requests width (concat results))
                (call_history (alert_requests width (concat results)) self w))
    as Hsub.
  apply (elem_of_sublist _ _ _ Hm) in Hsub. unfold alert_requests in Hsub.
  apply list_elem_of_omap in Hsub as (box & Hbox & Hreq).
  apply alert_request_label in Hreq as (Hl & Hc & Hd).
  exists box. split; [now apply list_elem_of_In|].
  split; [exact Hl|]. split; [apply HAZARD_MAP_keys; eauto|].
  split; [exact Hc|exact Hd].
Qed.

Lemma announcements_are_close_hazards_witness :
  exists box : Box,
    In box (concat [[chair_far; car_near]]) /\
    HAZARD_MAP !! int (cls box) = Some "Car (Dynamic)"%string.
Proof.
  assert (Hw : 1280%Z <> 0%Z) by lia.
  destruct (announcements_are_close_hazards 1280 [[chair_far; car_near]] init
              {| last_audio_time := 10 |} (clock_at 10)
              (write [Rectangle 600 300 728 500 GREEN;
                      PutText "Obstacle (Chair)" 3.0 600 290 GREEN;
                      Rectangle 50 100 1250 700 RED;
                      PutText "Car (Dynamic)" 0.5 50 90 RED;
                      BoneConductionAudio "Car (Dynamic)"]
                 (tick (clock_at 10)))
              (Normal tt)
              [Rectangle 600 300 728 500 GREEN;
               PutText "Obstacle (Chair)" 3.0 600 290 GREEN;
               Rectangle 50 100 1250 700 RED;
               PutText "Car (Dynamic)" 0.5 50 90 RED;
               BoneConductionAudio "Car (Dynamic)"]
              "Car (Dynamic)" Hw eq_refl eq_refl)
    as (box & Hin & Hl & _).
  - simpl. tauto.
  - exists box. split; [exact Hin|exact Hl].
Defined.

(** ** The capture loop *)

Lemma quit_key (k : Z) :
  (Z.land k 255 =? 113)%Z = true <-> (k mod 256 = 113)%Z.
Proof.
  change 255%Z with (Z.ones 8). rewrite Z.land_ones by lia.
  change (2 ^ 8)%Z with 256%Z. apply Z.eqb_eq.
Qed.

Lemma run_loop_cut (c : Capture) (rest : list Capture) :
  success c = false \/ (key c mod 256 = 113)%Z ->
  forall (pre : list Capture) (self : VantageSystem) (w : World),
    run_loop (pre ++ c :: rest) self w = run_loop (pre ++ [c]) self w.
Proof.
  intros Hc. induction pre as [|a pre IH]; intros self w.
  - cbn [app run_loop].
    destruct (success c) eqn:Hs; cbn [negb]; [|reflexivity].
    destruct Hc as [Hc|Hc]; [discriminate|].
    apply quit_key in Hc. rewrite Hc. reflexivity.
  - cbn [app run_loop].
    destruct (negb (success a)); [reflexivity|].
    unfold bind.
    destruct (process_detections (frame_width a) (results a) self w)
      as [[[[]|e] s1] w1]; [|reflexivity].
    cbn [emit]. destruct (Z.land (key a) 255 =? 113)%Z; [reflexivity|].
    apply IH.
Qed.

(** X12: the loop ends at the first capture whose read fails or at which the
    low byte of the key code is that of 'q': whatever captures would follow
    are never processed.  A failed read is not processed either: at the first
    capture it leaves the error message, the release of the camera and the
    closing of the windows as the only output. *)
Theorem run_ends_at_failure_or_quit (pre : list Capture) (c : Capture)
    (rest : list Capture) (self : VantageSystem) (w : World) :
  success c = false \/ (key c mod 256 = 113)%Z ->
  run (pre ++ c :: rest) self w = run (pre ++ [c]) self w /\
  (success c = false ->
   run (c :: rest) self w =
     (Normal tt, self,
      write [Console "[ERROR] Camera disconnected."; CapRelease;
             DestroyAllWindows] w)).
Proof.
  intros Hc. split.
  - unfold run, bind. now rewrite run_loop_cut.
  - intros Hs. unfold run, bind. cbn [run_loop]. rewrite Hs.
    cbn [negb]. unfold emit, write. simpl.
    now rewrite <- !app_assoc.
Qed.

Lemma run_ends_at_failure_or_quit_witness :
  run ([mkCapture true 1280 [[chair_far]] (-1)] ++
       mkCapture true 1280 [[chair_far]] (113 + 256) ::
       [mkCapture true 1280 [[car_near]] (-1)]) init (clock_at 10)
  = run ([mkCapture true 1280 [[chair_far]] (-1)] ++
         [mkCapture true 1280 [[chair_far]] (113 + 256)]) init (clock_at 10).
Proof.
  apply (run_ends_at_failure_or_quit
           [mkCapture true 1280 [[chair_far]] (-1)]
           (mkCapture true 1280 [[chair_far]] (113 + 256))
           [mkCapture true 1280 [[car_near]] (-1)] init (clock_at 10)).
  right. reflexivity.
Defined.




Lemma write_ticks_compose (e1 e2 : list Event) (n1 n2 : nat) (w : World) :
  write e2 (Nat.iter n2 tick (write e1 (Nat.iter n1 tick w))) =
  write (e1 ++ e2) (Nat.iter (n1 + n2) tick w).
Proof.
  destruct (write_ticks_fields e1 n1 w) as (A1 & A2 & A3).
  destruct (write_ticks_fields e2 n2 (write e1 (Nat.iter n1 tick w)))
    as (B1 & B2 & B3).
  destruct (write_ticks_fields (e1 ++ e2) (n1 + n2) w) as (C1 & C2 & C3).
  apply world_eq; rewrite ?B1, ?B2, ?B3, ?C1, ?C2, ?C3, ?A1, ?A2, ?A3;
    auto using app_assoc; lia.
Qed.

Lemma write_as_ticks (evs : list Event) (w : World) :
  write evs w = write evs (Nat.iter 0 tick w).
Proof. reflexivity. Qed.




(** ** A run as a sequence of hook calls *)

Lemma after_calls_app (a b : list string) :
  forall (self : VantageSystem) (w : World),
    after_calls (a ++ b) self w =
    after_calls b (fst (after_calls a self w)) (snd (after_calls a self w)).
Proof.
  induction a as [|m a IH]; intros self w.
  - unfold after_calls at 2 3. simpl. reflexivity.
  - cbn [app]. rewrite !after_calls_cons.
    destruct (Qgtb _ AUDIO_COOLDOWN); apply IH.
Qed.

Lemma call_history_app (a b : list string) :
  forall (self : VantageSystem) (w : World),
    call_history (a ++ b) self w =
    call_history a self w ++
    call_history b (fst (after_calls a self w)) (snd (after_calls a self w)).
Proof.
  induction a as [|m a IH]; intros self w.
  - reflexivity.
  - cbn [app]. rewrite !call_history_cons, after_calls_cons. cbv zeta.
    destruct (Qgtb _ AUDIO_COOLDOWN); cbn [app]; f_equal; apply IH.
Qed.

Lemma spoken_messages_app (a b : list string) :
  forall ha hb : list (Q * bool),
    length ha = length a ->
    spoken_messages (a ++ b) (ha ++ hb) =
    spoken_messages a ha ++ spoken_messages b hb.
Proof.
  induction a as [|m a IH]; intros ha hb Hlen.
  - destruct ha; [reflexivity|discriminate].
  - destruct ha as [|[t f] ha]; [discriminate|].
    injection Hlen as Hlen. cbn [app spoken_messages].
    rewrite IH by exact Hlen. now destruct f.
Qed.

Lemma after_calls_world (ms : list string) :
  forall (self : VantageSystem) (w : World),
    time_source (snd (after_calls ms self w)) = time_source w /\
    time_calls (snd (after_calls ms self w)) = (length ms + time_calls w)%nat.
Proof.
  induction ms as [|m ms IH]; intros self w; [split; reflexivity|].
  rewrite after_calls_cons.
  destruct (Qgtb _ AUDIO_COOLDOWN);
    match goal with
    | |- context [after_calls ms ?s ?v] => destruct (IH s v) as [-> ->]
    end; simpl; split; auto; lia.
Qed.

Lemma run_loop_hook_calls (feed : list Capture) :
  Forall (fun c => frame_width c <> 0%Z) feed ->
  forall (self : VantageSystem) (w : World),
  exists new : list Event,
    run_loop feed self w =
      (Normal tt, fst (after_calls (run_requests feed) self w),
       write new (Nat.iter (length (run_requests feed)) tick w)) /\
    audio_messages new =
      spoken_messages (run_requests feed)
        (call_history (run_requests feed) self w).
Proof.
  induction feed as [|c feed IH]; intros Hall self w.
  { exists []. simpl. rewrite write_nil. auto. }
  apply Forall_cons in Hall as [Hw Hall].
  cbn [run_loop run_requests].
  destruct (success c); cbn [negb].
  2:{ exists [Console "[ERROR] Camera disconnected."]. auto. }
  destruct (process_boxes_hook_calls (frame_width c) Hw
              (concat (results c)) self w)
    as (new1 & Hrun1 & _ & Hau1 & _).
  set (reqs := alert_requests (frame_width c) (concat (results c))) in *.
  unfold bind. rewrite process_detections_concat, Hrun1.
  unfold emit at 1.
  destruct (Z.land (key c) 255 =? 113)%Z.
  - exists (new1 ++ [ImShow; Console "[STOP] Shutting down Vantage System..."]).
    rewrite app_nil_r. split.
    + unfold emit. f_equal.
      rewrite (write_as_ticks [ImShow]), write_ticks_compose.
      rewrite (write_as_ticks [Console _]), write_ticks_compose.
      rewrite <- List.app_assoc, !Nat.add_0_r. reflexivity.
    + rewrite audio_messages_app, Hau1. simpl. apply app_nil_r.
  - set (s1 := fst (after_calls reqs self w)) in *.
    set (w2 := write [ImShow] (write new1 (Nat.iter (length reqs) tick w))).
    destruct (IH Hall s1 w2) as (new2 & Hrun2 & Hau2).
    destruct (after_calls_world reqs self w) as [Hts Htc].
    destruct (write_ticks_fields new1 (length reqs) w) as (Fts & Ftc & _).
    assert (Cts : time_source w2 = time_source (snd (after_calls reqs self w))).
    { unfold w2. simpl. unfold write in Fts. simpl in Fts. congruence. }
    assert (Ctc : time_calls w2 = time_calls (snd (after_calls reqs self w))).
    { unfold w2. simpl. unfold write in Ftc. simpl in Ftc. congruence. }
    exists (new1 ++ [ImShow] ++ new2).
    split.
    + rewrite Hrun2. f_equal; [f_equal|].
      * rewrite after_calls_app. fold s1.
        now apply after_calls_same_clock.
      * unfold w2.
        rewrite (write_as_ticks [ImShow]), write_ticks_compose.
        rewrite write_ticks_compose, length_app. reflexivity.
    + rewrite !audio_messages_app, Hau1, Hau2. simpl.
      rewrite call_history_app.
      rewrite spoken_messages_app by apply call_history_length.
      f_equal. f_equal. fold s1. now apply call_history_same_clock.
Qed.

Lemma run_hook_calls (feed : list Capture) (self : VantageSystem)
    (w : World) :
  Forall (fun c => frame_width c <> 0%Z) feed ->
  exists new : list Event,
    run feed self w =
      (Normal tt, fst (after_calls (run_requests feed) self w),
       write new (Nat.iter (length (run_requests feed)) tick w)) /\
    audio_messages new =
      spoken_messages (run_requests feed)
        (call_history (run_requests feed) self w).
Proof.
  intros Hall.
  destruct (run_loop_hook_calls feed Hall self w) as (new & Hrun & Hau).
  exists (new ++ [CapRelease; DestroyAllWindows]).
  unfold run, bind. rewrite Hrun. split.
  - unfold emit. f_equal.
    rewrite (write_as_ticks [CapRelease]), write_ticks_compose.
    rewrite (write_as_ticks [DestroyAllWindows]), write_ticks_compose.
    rewrite <- List.app_assoc, !Nat.add_0_r. reflexivity.
  - rewrite audio_messages_app, Hau. simpl. apply app_nil_r.
Qed.



(** X15: a run on frames of non-zero width during which the clock advances
    by at most the cooldown between any two of its readings announces at most
    one message in all, however many frames and close hazards it holds. *)
Theorem run_at_most_one_within_cooldown (feed : list Capture)
    (self self' : VantageSystem) (w w' : World) (r : Outcome unit)
    (new : list Event) :
  Forall (fun c => frame_width c <> 0%Z) feed ->
  (forall i j : nat,
     (time_calls w <= i < j)%nat ->
     (j < time_calls w + length (run_requests feed))%nat ->
     time_source w j - time_source w i <= AUDIO_COOLDOWN) ->
  run feed self w = (r, self', w') ->
  output w' = output w ++ new ->
  (length (audio_messages new) <= 1)%nat.
Proof.
  intros Hall Hspan Hrun Hout.
  destruct (run_hook_calls feed self w Hall) as (new0 & Hrun0 & Hau).
  rewrite Hrun0 in Hrun. injection Hrun as _ _ <-.
  destruct (write_ticks_fields new0 (length (run_requests feed)) w)
    as (_ & _ & Hout0).
  rewrite Hout0 in Hout. apply app_inv_head in Hout. subst new0.
  rewrite Hau. now apply calls_at_most_one.
Qed.

Lemma run_at_most_one_within_cooldown_witness :
  (length
     (audio_messages
        [Rectangle 50 100 1250 700 RED;
         PutText "Car (Dynamic)" 0.5 50 90 RED;
         BoneConductionAudio "Car (Dynamic)"; ImShow;
         Rectangle 100 50 1200 700 RED;
         PutText "Pedestrian (Dynamic)" 0.5 100 40 RED; ImShow;
         CapRelease; DestroyAllWindows]) <= 1)%nat.
Proof.
  apply (run_at_most_one_within_cooldown
           [mkCapture true 1280 [[car_near]] (-1);
            mkCapture true 1280 [[pedestrian_near]] (-1)]
           init {| last_audio_time := 10 |} (clock_from 10 2)
           (write [Rectangle 50 100 1250 700 RED;
                   PutText "Car (Dynamic)" 0.5 50 90 RED;
                   BoneConductionAudio "Car (Dynamic)"; ImShow;
                   Rectangle 100 50 1200 700 RED;
                   PutText "Pedestrian (Dynamic)" 0.5 100 40 RED; ImShow;
                   CapRelease; DestroyAllWindows]
              (tick (tick (clock_from 10 2))))
           (Normal tt)).
  - repeat constructor; simpl; lia.
  - intros i j Hi Hj.
    assert (L : length (run_requests
                          [mkCapture true 1280 [[car_near]] (-1);
                           mkCapture true 1280 [[pedestrian_near]] (-1)])
                = 2%nat) by reflexivity.
    rewrite L in Hj. change (time_calls (clock_from 10 2)) with 0%nat in *.
    assert (Hi0 : i = 0%nat) by lia. assert (Hj1 : j = 1%nat) by lia.
    subst i j. vm_compute. discriminate.
  - reflexivity.
  - reflexivity.
Defined.
